(** * PDF summarizer: text extraction and cleaning (src/main.py)

    A shallow embedding of [extract_and_clean_text_from_pdf],
    [summarize_text], [generate_quiz] and [handle_message], with the
    part of Python's [re] and [str] they rely on. *)

From stdpp Require Import base option list strings gmap.
From Stdlib Require Import Ascii NArith Lia.
From Stdlib Require DecimalString.

Set Default Proof Using "Type".

(** ** Python [str]

    A [str] is a sequence of code points.  Code points are modelled by
    [ascii], that is the range 0..255 (Latin-1); the character classes
    below are those of CPython's Unicode tables on that range. *)

Definition str := list ascii.

Definition lit (s : string) : str := String.list_ascii_of_string s.

Definition ord (c : ascii) : N := N_of_ascii c.

Definition LF : ascii := ascii_of_N 10.
Definition SP : ascii := ascii_of_N 32.
Definition HYPHEN : ascii := ascii_of_N 45.
Definition LOW_LINE : ascii := ascii_of_N 95.

Definition between (lo hi n : N) : bool := (lo <=? n)%N && (n <=? hi)%N.

(** [str.isspace] on one code point, also [\s] of [re] on [str]. *)
Definition Py_UNICODE_ISSPACE (c : ascii) : bool :=
  let n := ord c in
  between 9 13 n || between 28 32 n || (n =? 133)%N || (n =? 160)%N.

(** [\d] of [re] on [str]: the decimal digits. *)
Definition Py_UNICODE_ISDECIMAL (c : ascii) : bool :=
  between 48 57 (ord c).

(** [str.isalnum] on one code point. *)
Definition Py_UNICODE_ISALNUM (c : ascii) : bool :=
  let n := ord c in
  between 48 57 n || between 65 90 n || between 97 122 n
  || (n =? 170)%N || between 178 179 n || (n =? 181)%N || between 185 186 n
  || between 188 190 n || between 192 214 n || between 216 246 n
  || between 248 255 n.

(** [\w] of [re] on [str]: alphanumeric or the underscore. *)
Definition SRE_UNI_IS_WORD (c : ascii) : bool :=
  Py_UNICODE_ISALNUM c || bool_decide (c = LOW_LINE).

(** [sep.join(parts)] *)
Fixpoint join (sep : str) (parts : list str) : str :=
  match parts with
  | [] => []
  | [p] => p
  | p :: ps => p ++ sep ++ join sep ps
  end.

Fixpoint lstrip (s : str) : str :=
  match s with
  | c :: s' => if Py_UNICODE_ISSPACE c then lstrip s' else s
  | [] => []
  end.

Definition rstrip (s : str) : str := reverse (lstrip (reverse s)).

(** [s.strip()] *)
Definition strip (s : str) : str := rstrip (lstrip s).

(** ** The fragment of [re] used by the cleaning step *)
Module re.

Inductive category := CATEGORY_DIGIT | CATEGORY_SPACE | CATEGORY_WORD.

(** One-character items: [c], [\d], [\s], [\w]. *)
Inductive item :=
| LITERAL (c : ascii)
| IN (cat : category).

(** Patterns: an item, a greedy repetition [x*] or [x+] of an item,
    a sequence, a capturing group. *)
Inductive pattern :=
| ONE (x : item)
| MAX_REPEAT (min : nat) (x : item)
| SEQ (p q : pattern)
| SUBPATTERN (group : nat) (p : pattern).

Definition STAR := MAX_REPEAT 0.
Definition PLUS := MAX_REPEAT 1.

Definition in_category (cat : category) (c : ascii) : bool :=
  match cat with
  | CATEGORY_DIGIT => Py_UNICODE_ISDECIMAL c
  | CATEGORY_SPACE => Py_UNICODE_ISSPACE c
  | CATEGORY_WORD => SRE_UNI_IS_WORD c
  end.

Definition accepts (x : item) (c : ascii) : bool :=
  match x with
  | LITERAL d => bool_decide (c = d)
  | IN cat => in_category cat c
  end.

(** The text captured by each group that took part in the match. *)
Definition marks := list (nat * str).

Fixpoint group (g : marks) (n : nat) : option str :=
  match g with
  | [] => None
  | (m, s) :: g' => if bool_decide (m = n) then Some s else group g' n
  end.

(** Backtracking matcher in continuation-passing style: [k] is what
    remains of the pattern; it gets the rest of the subject. *)
Section Matcher.
Context {A : Type}.

(** Greedy [x*]: take as many as possible, give back one at a time. *)
Fixpoint repeat_greedy (x : item) (s : str) (k : str -> option A) : option A :=
  match s with
  | c :: s' =>
      if accepts x c then
        match repeat_greedy x s' k with
        | Some r => Some r
        | None => k s
        end
      else k s
  | [] => k s
  end.

(** [min] mandatory occurrences, then the greedy part. *)
Fixpoint repeat_min (min : nat) (x : item) (s : str) (k : str -> option A) : option A :=
  match min with
  | O => repeat_greedy x s k
  | S n =>
      match s with
      | c :: s' => if accepts x c then repeat_min n x s' k else None
      | [] => None
      end
  end.

Fixpoint run (p : pattern) (s : str) (g : marks) (k : str -> marks -> option A) : option A :=
  match p with
  | ONE x =>
      match s with
      | c :: s' => if accepts x c then k s' g else None
      | [] => None
      end
  | MAX_REPEAT min x => repeat_min min x s (fun rest => k rest g)
  | SEQ p q => run p s g (fun rest g' => run q rest g' k)
  | SUBPATTERN n p =>
      run p s g (fun rest g' => k rest ((n, take (length s - length rest) s) :: g'))
  end.
End Matcher.

(** A match of [p] at the start of [s]: how many characters it takes
    and the groups.  With [must_advance] an empty match is refused (and
    the matcher backtracks). *)
Definition match_here (p : pattern) (s : str) (must_advance : bool) : option (nat * marks) :=
  run p s [] (fun rest g =>
    let n := (length s - length rest)%nat in
    if must_advance && bool_decide (n = 0) then None else Some (n, g)).

(** Replacement templates: literal text and group references [\1]. *)
Inductive template_part :=
| TEXT (s : str)
| GROUPREF (n : nat).

Definition template := list template_part.

Fixpoint expand (t : template) (g : marks) : str :=
  match t with
  | [] => []
  | TEXT s :: t' => s ++ expand t' g
  | GROUPREF n :: t' => default [] (group g n) ++ expand t' g
  end.

(** [re.sub(pattern, repl, string)]: the matches are searched from left
    to right and do not overlap.  [skip] counts the characters of the
    subject still covered by the last match.  An empty match is
    replaced too, and the search goes on at the same place for a match
    that is not empty. *)
Fixpoint sub_from (p : pattern) (repl : template) (s : str) (skip : nat) : str :=
  match s with
  | [] =>
      match skip with
      | O =>
          match match_here p [] false with
          | Some (_, g) => expand repl g
          | None => []
          end
      | S _ => []
      end
  | c :: s' =>
      match skip with
      | S n => sub_from p repl s' n
      | O =>
          match match_here p s false with
          | Some (S n, g) => expand repl g ++ sub_from p repl s' n
          | Some (O, g) =>
              expand repl g ++
              match match_here p s true with
              | Some (n, g') => expand repl g' ++ sub_from p repl s' (pred n)
              | None => c :: sub_from p repl s' 0
              end
          | None => c :: sub_from p repl s' 0
          end
      end
  end.

Definition sub (p : pattern) (repl : template) (s : str) : str :=
  sub_from p repl s 0.

End re.

Import re.

(** r'\n+' *)
Definition newlines_re : pattern := PLUS (LITERAL LF).

(** r'(\w+)-\s+(\w+)' and its replacement r'\1\2' *)
Definition hyphen_re : pattern :=
  SEQ (SUBPATTERN 1 (PLUS (IN CATEGORY_WORD)))
      (SEQ (ONE (LITERAL HYPHEN))
           (SEQ (PLUS (IN CATEGORY_SPACE))
                (SUBPATTERN 2 (PLUS (IN CATEGORY_WORD))))).

Definition hyphen_repl : template := [GROUPREF 1; GROUPREF 2].

(** r'\s*\d+\s*' *)
Definition number_re : pattern :=
  SEQ (STAR (IN CATEGORY_SPACE))
      (SEQ (PLUS (IN CATEGORY_DIGIT)) (STAR (IN CATEGORY_SPACE))).

Definition collapse_newlines (s : str) : str := sub newlines_re [TEXT [SP]] s.
Definition rejoin_hyphens (s : str) : str := sub hyphen_re hyphen_repl s.
Definition remove_numbers (s : str) : str := sub number_re [TEXT [SP]] s.

(** Lines 29-36: the three substitutions and the final [strip]. *)
Definition clean (combined_text : str) : str :=
  let cleaned_text := collapse_newlines combined_text in
  let cleaned_text := rejoin_hyphens cleaned_text in
  let cleaned_text := remove_numbers cleaned_text in
  strip cleaned_text.

(** ** Exceptions, the world, and computations *)

(** Classes of the exceptions that occur; all derive from [Exception]. *)
Inductive exc_class :=
| ValueError
| TypeError
| FileNotFoundError
| FileExistsError
| OtherError (name : string).

Record exception := Exc { exc_type : exc_class; exc_msg : str }.

(** [str(e)], also what [{e}] gives in an f-string. *)
Definition exc_str (e : exception) : str := exc_msg e.

Inductive outcome (A : Type) :=
| Returns (a : A)
| Raises (e : exception).
Arguments Returns {A} a.
Arguments Raises {A} e.

(** A page of a PDF: what [page.extract_text()] does. *)
Record page := Page { extract_text : outcome str }.

(** The mutable lists the code handles: [reader.pages] and [full_text]. *)
Inductive object :=
| Pages (ps : list page)
| Strs (ss : list str).

Definition loc := nat.

Definition bytes := list Byte.byte.

(** A chat message as built by [cl.Message(content, author, actions)]. *)
Record chat_message := Msg {
  content : str;
  author : str;
  actions : list str
}.

Record world := World {
  heap : list object;              (* list objects, by address *)
  stdout : list str;               (* lines written by print *)
  fs : gmap str bytes;             (* files, by path *)
  outbox : list chat_message;      (* messages sent to the chat *)
  user_session : gmap string str;  (* cl.user_session *)
  tmp_pdf_path : option str        (* the local of handle_message, when bound *)
}.

Definition set_heap (h : list object) (w : world) : world :=
  World h (stdout w) (fs w) (outbox w) (user_session w) (tmp_pdf_path w).
Definition set_stdout (o : list str) (w : world) : world :=
  World (heap w) o (fs w) (outbox w) (user_session w) (tmp_pdf_path w).
Definition set_fs (f : gmap str bytes) (w : world) : world :=
  World (heap w) (stdout w) f (outbox w) (user_session w) (tmp_pdf_path w).
Definition set_outbox (o : list chat_message) (w : world) : world :=
  World (heap w) (stdout w) (fs w) o (user_session w) (tmp_pdf_path w).
Definition set_user_session (u : gmap string str) (w : world) : world :=
  World (heap w) (stdout w) (fs w) (outbox w) u (tmp_pdf_path w).
Definition set_tmp_pdf_path (p : option str) (w : world) : world :=
  World (heap w) (stdout w) (fs w) (outbox w) (user_session w) p.

(** A computation: it returns or raises, and leaves a world. *)
Definition py (A : Type) : Type := world -> outcome A * world.

Definition ret {A} (a : A) : py A := fun w => (Returns a, w).
Definition raise {A} (e : exception) : py A := fun w => (Raises e, w).
Definition bind {A B} (m : py A) (k : A -> py B) : py B :=
  fun w =>
    match m w with
    | (Returns a, w') => k a w'
    | (Raises e, w') => (Raises e, w')
    end.

Notation "x <- m ;; k" := (bind m (fun x => k))
  (at level 100, m at next level, right associativity,
   format "'[v' x  <-  m  ;;  '/' k ']'").
Notation "m ;;; k" := (bind m (fun _ => k))
  (at level 100, right associativity, format "'[v' m  ;;;  '/' k ']'").

(** [try: body  except Exception as e: handler e] *)
Definition try_except {A} (body : py A) (handler : exception -> py A) : py A :=
  fun w =>
    match body w with
    | (Raises e, w') => handler e w'
    | r => r
    end.

(** [try: body  finally: cleanup] *)
Definition try_finally {A} (body : py A) (cleanup : py unit) : py A :=
  fun w =>
    let (r, w') := body w in
    match cleanup w' with
    | (Returns _, w'') => (r, w'')
    | (Raises e, w'') => (Raises e, w'')
    end.

(** [for x in xs: body x] *)
Fixpoint for_each {A} (xs : list A) (body : A -> py unit) : py unit :=
  match xs with
  | [] => ret tt
  | x :: xs' => body x ;;; for_each xs' body
  end.

(** A value of another kind than the operation needs. *)
Definition type_error {A} : py A := raise (Exc TypeError (lit "unsupported operand")).

Definition get_pages (l : loc) : py (list page) :=
  fun w =>
    match heap w !! l with
    | Some (Pages ps) => ret ps w
    | _ => type_error w
    end.

Definition get_strs (l : loc) : py (list str) :=
  fun w =>
    match heap w !! l with
    | Some (Strs ss) => ret ss w
    | _ => type_error w
    end.

(** [[]]: a new list, at a new address. *)
Definition new_list : py loc :=
  fun w => (Returns (length (heap w)), set_heap (heap w ++ [Strs []]) w).

(** [l.append(s)] *)
Definition append (l : loc) (s : str) : py unit :=
  fun w =>
    match heap w !! l with
    | Some (Strs ss) => (Returns tt, set_heap (<[l := Strs (ss ++ [s])]> (heap w)) w)
    | _ => type_error w
    end.

(** [print(line)] *)
Definition print (line : str) : py unit :=
  fun w => (Returns tt, set_stdout (stdout w ++ [line]) w).

(** [page.extract_text()] *)
Definition call_extract_text (p : page) : py str :=
  fun w => (extract_text p, w).

(** ** extract_and_clean_text_from_pdf *)

(** What the PDF library makes of the bytes of a file: it fails, or
    gives the pages. *)
Definition pdf_library := bytes -> outcome (list page).

(** [PdfReader(pdf_path)]: the reader, identified with its [pages]. *)
Definition PdfReader (pypdf : pdf_library) (pdf_path : str) : py loc :=
  fun w =>
    match fs w !! pdf_path with
    | None => (Raises (Exc FileNotFoundError (lit "No such file or directory")), w)
    | Some b =>
        match pypdf b with
        | Raises e => (Raises e, w)
        | Returns ps => (Returns (length (heap w)), set_heap (heap w ++ [Pages ps]) w)
        end
    end.

Definition NO_PAGES : str := lit "PDF contains no pages or is unreadable.".
Definition NO_TEXT : str := lit "No readable text found in PDF.".
Definition UNREADABLE : str :=
  lit "Unable to extract text from the PDF. Please upload a readable document.".

(** Lines 14-36, the body of the [try] once the reader is there: the
    [normalize] of the specification, on the pages of [reader]. *)
Definition normalize_pages (reader : loc) : py str :=
  pages <- get_pages reader ;;
  if bool_decide (length pages = 0) then raise (Exc ValueError NO_PAGES)
  else
    full_text <- new_list ;;
    for_each pages (fun page =>
      text <- call_extract_text page ;;
      if bool_decide (text <> []) then append full_text text else ret tt) ;;;
    texts <- get_strs full_text ;;
    if bool_decide (texts = []) then raise (Exc ValueError NO_TEXT)
    else
      let combined_text := join [LF] texts in
      ret (clean combined_text).

Definition extract_and_clean_text_from_pdf (pypdf : pdf_library) (pdf_path : str) : py str :=
  try_except
    (reader <- PdfReader pypdf pdf_path ;; normalize_pages reader)
    (fun e =>
       print (lit "Error extracting text from PDF: " ++ exc_str e) ;;;
       raise (Exc ValueError UNREADABLE)).

(** The document of the specification: page texts, each extracted
    without failure. *)
Definition document (texts : list str) : list page :=
  map (fun t => Page (Returns t)) texts.

Definition empty_world : world := World [] [] ∅ [] ∅ None.

(** [normalize(pages)] of the specification: the body above run on a
    reader whose pages give [texts]. *)
Definition normalize (texts : list str) : outcome str :=
  fst (normalize_pages 0 (set_heap [Pages (document texts)] empty_world)).

(** ** summarize_text and generate_quiz *)

Definition SUMMARY_HEAD : str :=
  lit "Please summarize the following document, focusing on key ideas and important points. Ensure the summary is clear, concise, and structured with short, readable paragraphs:"
  ++ [LF; LF].
Definition SUMMARY_TAIL : str := [LF; LF] ++ lit "Summary:".

Definition summarize_text (text : str) : str :=
  let summary_prompt := SUMMARY_HEAD ++ text ++ SUMMARY_TAIL in
  summary_prompt.

Definition NO_QUIZ : str := lit "No quiz can be generated for empty text.".
Definition QUIZ_HEAD : str :=
  lit "Based on the following text, please generate a quiz. It can include Multiple Choice Questions (MCQs) or mixed-style questions. Focus on important facts and concepts:"
  ++ [LF; LF].
Definition QUIZ_TAIL : str := [LF; LF] ++ lit "Quiz:".

Definition generate_quiz (original_text : str) : list str :=
  if bool_decide (original_text = []) then [NO_QUIZ]
  else
    let quiz_prompt := QUIZ_HEAD ++ original_text ++ QUIZ_TAIL in
    [quiz_prompt].

(** ** handle_message *)

(** [file.content]: absent, [bytes] or [str]. *)
Inductive file_content :=
| NoContent
| BytesContent (b : bytes)
| StrContent (s : str).

Record element := Element {
  name : str;
  mime : str;
  file_data : file_content
}.

(** What the handler gets from outside: the PDF library, the names the
    temporary-file generator draws, in order, and what the framework's
    constructor [cl.Action(name=..., label=..., ui="button")] does with
    these arguments: it gives the action, or it raises (a framework
    whose [Action] has no field [ui], or requires others, refuses them). *)
Record environment := Env {
  pypdf : pdf_library;
  tmp_names : list str;
  cl_Action : str -> outcome str
}.

(** [await cl.Message(content=..., author="Assistant", actions=...).send()] *)
Definition send (text : str) (acts : list str) : py unit :=
  fun w => (Returns tt, set_outbox (outbox w ++ [Msg text (lit "Assistant") acts]) w).

(** The first drawn name that no file has. *)
Fixpoint mkstemp (names : list str) (files : gmap str bytes) : option str :=
  match names with
  | [] => None
  | n :: names' => if bool_decide (files !! n = None) then Some n else mkstemp names' files
  end.

(** [tempfile.NamedTemporaryFile(delete=False, suffix=".pdf")]: a new,
    empty file; the result is its name. *)
Definition NamedTemporaryFile (names : list str) : py str :=
  fun w =>
    match mkstemp names (fs w) with
    | Some n => (Returns n, set_fs (<[n := []]> (fs w)) w)
    | None => (Raises (Exc FileExistsError (lit "No usable temporary file name found")), w)
    end.

(** [tmpfile.write(data)] on a file opened in binary mode. *)
Definition write (path : str) (data : file_content) : py unit :=
  match data with
  | BytesContent b => fun w => (Returns tt, set_fs (<[path := b]> (fs w)) w)
  | _ => raise (Exc TypeError (lit "a bytes-like object is required, not 'str'"))
  end.

(** [os.path.exists(path)] and [os.remove(path)] *)
Definition path_exists (path : str) : py bool :=
  fun w => (Returns (bool_decide (is_Some (fs w !! path))), w).

Definition remove (path : str) : py unit :=
  fun w =>
    match fs w !! path with
    | Some _ => (Returns tt, set_fs (delete path (fs w)) w)
    | None => (Raises (Exc FileNotFoundError (lit "No such file or directory")), w)
    end.

Definition assign_tmp_pdf_path (path : str) : py unit :=
  fun w => (Returns tt, set_tmp_pdf_path (Some path) w).

(** [cl.user_session.set(key, value)] *)
Definition session_set (key : string) (value : str) : py unit :=
  fun w => (Returns tt, set_user_session (<[key := value]> (user_session w)) w).

(** [cl.Action(name=name, label="Create Quiz ...", ui="button")] *)
Definition call_Action (env : environment) (name : str) : py str :=
  fun w => (cl_Action env name, w).

Definition PDF_MIME : str := lit "application/pdf".

(** The body of the [try] of [handle_message]. *)
Definition process_upload (env : environment) (pdf_file : element) : py unit :=
  match file_data pdf_file with
  | NoContent =>
      send (lit "Error: Could not retrieve content for `" ++ name pdf_file
            ++ lit "`. Please try uploading again.") []
  | data =>
      tmpfile <- NamedTemporaryFile (tmp_names env) ;;
      write tmpfile data ;;;
      assign_tmp_pdf_path tmpfile ;;;
      original_text <- extract_and_clean_text_from_pdf (pypdf env) tmpfile ;;
      session_set "original_pdf_text" original_text ;;;
      let summary_content := summarize_text original_text in
      send (lit "Generating summary...") [] ;;;
      send (lit "**Summary:**" ++ [LF] ++ summary_content) [] ;;;
      if bool_decide (original_text <> [])
      then
        action <- call_Action env (lit "create_quiz") ;;
        send (lit "Summary generated successfully!") [action]
      else ret tt
  end.

(** The two [except] clauses. *)
Definition report (e : exception) : py unit :=
  match exc_type e with
  | ValueError => send (exc_str e) []
  | _ => send (lit "An unexpected error occurred: " ++ exc_str e) []
  end.

(** The [finally] clause. *)
Definition cleanup : py unit :=
  fun w =>
    match tmp_pdf_path w with
    | Some path =>
        (found <- path_exists path ;;
         if found then remove path else ret tt) w
    | None => (Returns tt, w)
    end.

Definition handle_message (env : environment) (elements : list element) : py unit :=
  fun w =>
    let w := set_tmp_pdf_path None w in
    let files := filter (fun file => mime file = PDF_MIME) elements in
    match files with
    | [] => send (lit "Please upload a PDF file to summarize.") [] w
    | pdf_file :: _ =>
        (send (lit "Processing `" ++ name pdf_file ++ lit "`...") [] ;;;
         try_finally (try_except (process_upload env pdf_file) report) cleanup) w
    end.

(** ** start and on_create_quiz *)

Definition start : py unit :=
  send (lit "Welcome to the PDF Summarizer! Please upload a PDF document to get started.") [].

(** [cl.user_session.get(key)]: [None] when the key is not there. *)
Definition session_get (key : string) : py (option str) :=
  fun w => (Returns (user_session w !! key), w).

(** [xs[0]] *)
Definition first_item (xs : list str) : py str :=
  match xs with
  | x :: _ => ret x
  | [] => raise (Exc (OtherError "IndexError") (lit "list index out of range"))
  end.

Definition on_create_quiz : py unit :=
  original_text <- session_get "original_pdf_text" ;;
  match original_text with
  | None =>
      send (lit "No PDF text found to generate a quiz. Please upload a PDF first.") []
  | Some original_text =>
      if bool_decide (original_text = [])
      then send (lit "No PDF text found to generate a quiz. Please upload a PDF first.") []
      else
        send (lit "Generating quiz...") [] ;;;
        let quiz_prompt_or_list := generate_quiz original_text in
        quiz_content <- first_item quiz_prompt_or_list ;;
        send (lit "**Quiz:**" ++ [LF] ++ quiz_content) []
  end.

(** ** src/minimal_app.py *)
Module minimal_app.

(** [await cl.Message(content=...).send()]: no author is given, the
    message gets the author the framework is configured with. *)
Definition send (default_author : str) (text : str) : py unit :=
  fun w => (Returns tt, set_outbox (outbox w ++ [Msg text default_author []]) w).

Definition start (default_author : str) : py unit :=
  send default_author (lit "Upload a file!").

(** [if file.content:] absent and empty contents are false. *)
Definition has_content (data : file_content) : bool :=
  match data with
  | NoContent => false
  | BytesContent b => bool_decide (b <> [])
  | StrContent s => bool_decide (s <> [])
  end.

(** [len(file.content)] *)
Definition len (data : file_content) : nat :=
  match data with
  | NoContent => 0
  | BytesContent b => length b
  | StrContent s => length s
  end.

(** An integer in an f-string: its decimal digits. *)
Definition str_of_int (n : nat) : str :=
  lit (DecimalString.NilZero.string_of_uint (Nat.to_uint n)).

Definition handle_message (default_author : str) (elements : list element) : py unit :=
  let files := elements in
  if bool_decide (files <> []) then
    for_each files (fun file =>
      if has_content (file_data file)
      then send default_author
             (lit "Received file: " ++ name file ++ lit ", size: "
              ++ str_of_int (len (file_data file)) ++ lit " bytes")
      else send default_author
             (lit "Received file: " ++ name file ++ lit ", but content is missing!"))
  else send default_author (lit "No file uploaded.").

End minimal_app.

(** ** Definitions used to state the properties *)

(** The longest run of [x] at the start of [s], and what follows it. *)
Fixpoint span_run (x : item) (s : str) : str :=
  match s with
  | c :: s' => if accepts x c then c :: span_run x s' else []
  | [] => []
  end.

Fixpoint span_end (x : item) (s : str) : str :=
  match s with
  | c :: s' => if accepts x c then span_end x s' else s
  | [] => []
  end.

(** [s] does not start with a character of [x]. *)
Definition stops (x : item) (s : str) : Prop :=
  match s with
  | c :: _ => accepts x c = false
  | [] => True
  end.


(** [s] consists of characters of [x]. *)
Definition all_of (x : item) (s : str) : Prop := Forall (fun c => accepts x c = true) s.

Abbreviation WORD := (IN CATEGORY_WORD).
Abbreviation SPACE := (IN CATEGORY_SPACE).
Abbreviation DIGIT := (IN CATEGORY_DIGIT).

(** Collapsing runs of newlines, as the specification words it: every
    newline that starts a run gives a space, the others give nothing.
    [in_run] says whether the previous character was a newline. *)
Fixpoint collapse_runs (in_run : bool) (s : str) : str :=
  match s with
  | [] => []
  | c :: s' =>
      if bool_decide (c = LF)
      then (if in_run then collapse_runs true s' else SP :: collapse_runs true s')
      else c :: collapse_runs false s'
  end.

(** A hyphen-split word at the start of [s]: word characters, a hyphen,
    whitespace, word characters, each run the longest there is.  The
    result is the two words and what follows. *)
Definition hyphen_split (s : str) : option (str * str * str) :=
  match span_run WORD s, span_end WORD s with
  | (_ :: _) as w1, c :: r =>
      if bool_decide (c = HYPHEN) then
        match span_run SPACE r, span_run WORD (span_end SPACE r) with
        | _ :: _, (_ :: _) as w2 => Some (w1, w2, span_end WORD (span_end SPACE r))
        | _, _ => None
        end
      else None
  | _, _ => None
  end.

(** A number at the start of [s]: whitespace, digits (at least one),
    whitespace, each run the longest there is.  The result is what
    follows. *)
Definition number_split (s : str) : option str :=
  match span_end SPACE s with
  | c :: r =>
      if Py_UNICODE_ISDECIMAL c
      then Some (span_end SPACE (span_end DIGIT r))
      else None
  | [] => None
  end.

(** What the loop over the pages does to [full_text], starting from
    [acc]: it adds the texts that are not empty, and stops at the first
    page whose extraction raises. *)
Fixpoint gather (ps : list page) (acc : list str) : outcome unit * list str :=
  match ps with
  | [] => (Returns tt, acc)
  | p :: ps' =>
      match extract_text p with
      | Returns t => gather ps' (if bool_decide (t <> []) then acc ++ [t] else acc)
      | Raises e => (Raises e, acc)
      end
  end.

(** The page texts that are not empty, in order. *)
Definition readable (texts : list str) : list str :=
  filter (fun t => t <> []) texts.

(** The outcome of lines 14-36 on pages [ps]. *)
Definition pages_outcome (ps : list page) : outcome str :=
  if bool_decide (ps = []) then Raises (Exc ValueError NO_PAGES)
  else
    match gather ps [] with
    | (Raises e, _) => Raises e
    | (Returns _, texts) =>
        if bool_decide (texts = []) then Raises (Exc ValueError NO_TEXT)
        else Returns (clean (join [LF] texts))
    end.

(** The world after lines 14-36 on pages [ps]: [full_text] is a new
    object, nothing else differs. *)
Definition pages_world (ps : list page) (w : world) : world :=
  if bool_decide (ps = []) then w
  else set_heap (heap w ++ [Strs (snd (gather ps []))]) w.

(** A character that no cleaning step can remove: not whitespace, not a
    decimal digit, not a hyphen. *)
Definition solid (c : ascii) : Prop :=
  Py_UNICODE_ISSPACE c = false /\ Py_UNICODE_ISDECIMAL c = false /\ c <> HYPHEN.

(** A word split by a hyphen, as the specification words it: word
    characters [w1], a hyphen, whitespace [sp], word characters [w2]. *)
Definition hyphen_split_word (w1 sp w2 : str) : Prop :=
  w1 <> [] /\ all_of WORD w1 /\ sp <> [] /\ all_of SPACE sp /\ w2 <> [] /\ all_of WORD w2.

(** The extraction backend fails with [e] on the file at [pdf_path]:
    the file cannot be opened, the library refuses its bytes, or the
    extraction of some page raises (the first such page counts). *)
Inductive backend_raises (pypdf : pdf_library) (pdf_path : str) (w : world) :
    exception -> Prop :=
| open_raises :
    fs w !! pdf_path = None ->
    backend_raises pypdf pdf_path w (Exc FileNotFoundError (lit "No such file or directory"))
| reader_raises b e :
    fs w !! pdf_path = Some b ->
    pypdf b = Raises e ->
    backend_raises pypdf pdf_path w e
| page_raises b before p after e :
    fs w !! pdf_path = Some b ->
    pypdf b = Returns (before ++ p :: after) ->
    Forall (fun q => exists t, extract_text q = Returns t) before ->
    extract_text p = Raises e ->
    backend_raises pypdf pdf_path w e.

(** What the extraction makes of the bytes of a file, before the
    [except] clause: the library fails, or lines 14-36 run on its pages. *)
Definition pdf_text (pypdf : pdf_library) (b : bytes) : outcome str :=
  match pypdf b with
  | Raises e => Raises e
  | Returns ps => pages_outcome ps
  end.

(** The line the [except] clause prints for [e]. *)
Definition log_line (e : exception) : str :=
  lit "Error extracting text from PDF: " ++ exc_str e.

(** The PDF the handler works on: the first element of that type. *)
Definition first_pdf (elements : list element) : option element :=
  head (filter (fun file => mime file = PDF_MIME) elements).

(** A message of the assistant, as [send] builds it. *)
Definition assistant (text : str) (acts : list str) : chat_message :=
  Msg text (lit "Assistant") acts.

(** The text the two [except] clauses of [handle_message] send for [e]. *)
Definition report_text (e : exception) : str :=
  match exc_type e with
  | ValueError => exc_str e
  | _ => lit "An unexpected error occurred: " ++ exc_str e
  end.

(** What [handle_message] sends after the summary of the text [r]:
    nothing for the empty text; otherwise the message with the quiz
    button or, when the framework refuses the action, the text the
    [except] clauses send for its exception. *)
Definition closing_messages (env : environment) (r : str) : list chat_message :=
  if bool_decide (r <> []) then
    match cl_Action env (lit "create_quiz") with
    | Returns action => [assistant (lit "Summary generated successfully!") [action]]
    | Raises e => [assistant (report_text e) []]
    end
  else [].
(** * Properties *)

(** ** Character classes *)

Ltac by_cases_on_ascii c :=
  destruct c as [[] [] [] [] [] [] [] []]; vm_compute; congruence.

Lemma space_not_word c : Py_UNICODE_ISSPACE c = true -> SRE_UNI_IS_WORD c = false.
Proof. by_cases_on_ascii c. Qed.

Lemma space_not_digit c : Py_UNICODE_ISSPACE c = true -> Py_UNICODE_ISDECIMAL c = false.
Proof. by_cases_on_ascii c. Qed.

Lemma digit_is_word c : Py_UNICODE_ISDECIMAL c = true -> SRE_UNI_IS_WORD c = true.
Proof. by_cases_on_ascii c. Qed.

Lemma word_not_space c : SRE_UNI_IS_WORD c = true -> Py_UNICODE_ISSPACE c = false.
Proof. by_cases_on_ascii c. Qed.

Lemma digit_not_space c : Py_UNICODE_ISDECIMAL c = true -> Py_UNICODE_ISSPACE c = false.
Proof. by_cases_on_ascii c. Qed.

Lemma LF_is_space : Py_UNICODE_ISSPACE LF = true.
Proof. reflexivity. Qed.

Lemma hyphen_not_word : SRE_UNI_IS_WORD HYPHEN = false.
Proof. reflexivity. Qed.

(** ** The matcher *)

Lemma span_split x s : span_run x s ++ span_end x s = s.
Proof. induction s as [|c s IH]; simpl; [done|]. destruct (accepts x c); simpl; congruence. Qed.

Lemma span_run_accepted x s : Forall (fun c => accepts x c = true) (span_run x s).
Proof.
  induction s as [|c s IH]; simpl; [constructor|].
  destruct (accepts x c) eqn:E; constructor; done.
Qed.

Lemma span_end_stops x s : stops x (span_end x s).
Proof. induction s as [|c s IH]; simpl; [done|]. destruct (accepts x c) eqn:E; simpl; done. Qed.

Lemma span_end_length x s : length (span_end x s) <= length s.
Proof. induction s as [|c s IH]; simpl; [lia|]. destruct (accepts x c); simpl; lia. Qed.

Lemma span_end_stopped x s : stops x s -> span_end x s = s.
Proof. destruct s as [|c s]; simpl; [done|]. intros ->. done. Qed.

Lemma span_run_stopped x s : stops x s -> span_run x s = [].
Proof. destruct s as [|c s]; simpl; [done|]. intros ->. done. Qed.

Lemma span_end_app x a s :
  Forall (fun c => accepts x c = true) a -> span_end x (a ++ s) = span_end x s.
Proof. induction 1 as [|c a Hc _ IH]; simpl; [done|]. by rewrite Hc. Qed.

Lemma span_run_app x a s :
  Forall (fun c => accepts x c = true) a -> span_run x (a ++ s) = a ++ span_run x s.
Proof. induction 1 as [|c a Hc _ IH]; simpl; [done|]. rewrite Hc. congruence. Qed.

Lemma drop_span x s : drop (length (span_run x s)) s = span_end x s.
Proof.
  rewrite <- (span_split x s) at 2. by rewrite drop_app_length.
Qed.

Lemma take_span x s : take (length (span_run x s)) s = span_run x s.
Proof.
  rewrite <- (span_split x s) at 2. by rewrite take_app_length.
Qed.

Lemma length_span x s : length s = length (span_run x s) + length (span_end x s).
Proof. rewrite <- (span_split x s) at 1. by rewrite length_app. Qed.

(** The greedy repetition settles on the longest run as soon as the
    continuation accepts what follows it, or when it refuses every
    subject that starts with a character of [x]. *)
Lemma repeat_greedy_max {A} x s (k : str -> option A) :
  is_Some (k (span_end x s)) \/ (forall c t, accepts x c = true -> k (c :: t) = None) ->
  repeat_greedy x s k = k (span_end x s).
Proof.
  intros Hk. induction s as [|c s IH]; simpl; [done|].
  destruct (accepts x c) eqn:E; [|done].
  simpl in Hk. rewrite E in Hk. rewrite (IH Hk).
  destruct (k (span_end x s)) eqn:Ek; [done|].
  destruct Hk as [[? ?]|Hk]; [congruence|]. by apply Hk.
Qed.

Lemma repeat_plus {A} x s (k : str -> option A) :
  repeat_min 1 x s k =
    match s with
    | c :: s' => if accepts x c then repeat_greedy x s' k else None
    | [] => None
    end.
Proof. reflexivity. Qed.

(** A successful run is an answer of its continuation. *)
Lemma repeat_greedy_result {A} x s (k : str -> option A) r :
  repeat_greedy x s k = Some r -> exists rest, k rest = Some r.
Proof.
  induction s as [|c s IH]; simpl; [eauto|].
  destruct (accepts x c); [|eauto].
  destruct (repeat_greedy x s k) eqn:E; [|eauto].
  intros [= <-]. by apply IH.
Qed.

Lemma repeat_min_result {A} n x s (k : str -> option A) r :
  repeat_min n x s k = Some r -> exists rest, k rest = Some r.
Proof.
  revert s. induction n as [|n IH]; intros s; simpl.
  - apply repeat_greedy_result.
  - destruct s as [|c s]; [done|]. destruct (accepts x c); [apply IH|done].
Qed.

Lemma run_result {A} p s g (k : str -> marks -> option A) r :
  run p s g k = Some r -> exists rest g', k rest g' = Some r.
Proof.
  revert s g k. induction p as [x|n x|p IHp q IHq|n p IH]; intros s g k; simpl.
  - destruct s as [|c s]; [done|]. destruct (accepts x c); [eauto|done].
  - intros H. apply repeat_min_result in H as [rest H]. eauto.
  - intros H. apply IHp in H as (rest & g' & H). by apply IHq in H.
  - intros H. apply IH in H as (rest & g' & H). eauto.
Qed.

Lemma match_here_bound p s ma n g :
  match_here p s ma = Some (n, g) -> n <= length s.
Proof.
  unfold match_here. intros H. apply run_result in H as (rest & g' & H).
  destruct (_ && _); [done|]. injection H as <- _. lia.
Qed.

(** ** [re.sub] *)

Lemma sub_from_skip p repl s n :
  n <= length s -> sub_from p repl s n = sub p repl (drop n s).
Proof.
  revert s. induction n as [|n IH]; intros s Hn.
  - by rewrite drop_0.
  - destruct s as [|c s]; simpl in *; [lia|]. apply IH. lia.
Qed.

Lemma sub_nil p repl : match_here p [] false = None -> sub p repl [] = [].
Proof. unfold sub; simpl. by intros ->. Qed.

Lemma sub_cons_none p repl c s :
  match_here p (c :: s) false = None -> sub p repl (c :: s) = c :: sub p repl s.
Proof. unfold sub; simpl. by intros ->. Qed.

Lemma sub_cons_some p repl c s n g :
  match_here p (c :: s) false = Some (S n, g) ->
  sub p repl (c :: s) = expand repl g ++ sub p repl (drop n s).
Proof.
  intros H. pose proof (match_here_bound _ _ _ _ _ H) as Hn. simpl in Hn.
  unfold sub at 1; simpl. rewrite H. f_equal. apply sub_from_skip. lia.
Qed.

(** ** The three patterns *)

Section RunEquations.
Context {A : Type} (k : str -> marks -> option A) (g : marks).

Lemma run_PLUS x s :
  run (PLUS x) s g k =
    match s with
    | c :: s' => if accepts x c then repeat_greedy x s' (fun rest => k rest g) else None
    | [] => None
    end.
Proof. reflexivity. Qed.

Lemma run_ONE x s :
  run (ONE x) s g k =
    match s with
    | c :: s' => if accepts x c then k s' g else None
    | [] => None
    end.
Proof. reflexivity. Qed.

Lemma run_STAR x s : run (STAR x) s g k = repeat_greedy x s (fun rest => k rest g).
Proof. reflexivity. Qed.

Lemma run_SEQ p q s : run (SEQ p q) s g k = run p s g (fun rest g' => run q rest g' k).
Proof. reflexivity. Qed.

Lemma run_SUBPATTERN n p s :
  run (SUBPATTERN n p) s g k =
    run p s g (fun rest g' => k rest ((n, take (length s - length rest) s) :: g')).
Proof. reflexivity. Qed.
End RunEquations.

Lemma length_sub_span x s :
  S (length s) - length (span_end x s) = S (length (span_run x s)).
Proof. rewrite (length_span x s) at 1. lia. Qed.

Lemma match_newlines_LF s ma :
  match_here newlines_re (LF :: s) ma = Some (S (length (span_run (LITERAL LF) s)), []).
Proof.
  unfold match_here, newlines_re. rewrite run_PLUS.
  simpl accepts. simpl length.
  assert (Hk : forall n, (if ma && bool_decide (S n = 0) then None else Some (S n, []))
                         = Some (S n, @nil (nat * str))).
  { intros n. rewrite bool_decide_eq_false_2 by lia. by rewrite andb_false_r. }
  rewrite repeat_greedy_max; rewrite length_sub_span, Hk; eauto.
Qed.

Lemma match_newlines_other c s ma :
  c <> LF -> match_here newlines_re (c :: s) ma = None.
Proof.
  intros Hc. unfold match_here, newlines_re. rewrite run_PLUS.
  simpl accepts. by rewrite bool_decide_eq_false_2.
Qed.

Lemma match_newlines_nil ma : match_here newlines_re [] ma = None.
Proof. reflexivity. Qed.

Lemma top_some (s rest : str) (ma : bool) (g : marks) :
  length rest < length s ->
  (if ma && bool_decide (length s - length rest = 0)
   then None else Some (length s - length rest, g)) = Some (length s - length rest, g).
Proof. intros H. rewrite bool_decide_eq_false_2 by lia. by rewrite andb_false_r. Qed.

Lemma span_end_cons_length x s c r : span_end x s = c :: r -> length r < length s.
Proof. intros E. pose proof (span_end_length x s) as H. rewrite E in H. simpl in H. lia. Qed.

Lemma match_number s ma :
  match_here number_re s ma =
    match number_split s with
    | Some rest => Some (length s - length rest, [])
    | None => None
    end.
Proof.
  unfold match_here, number_re, number_split.
  rewrite run_SEQ, run_STAR. rewrite repeat_greedy_max.
  2:{ right. intros c t Hc. rewrite run_SEQ, run_PLUS.
      simpl in Hc. simpl accepts. by rewrite (space_not_digit c Hc). }
  rewrite run_SEQ, run_PLUS.
  destruct (span_end SPACE s) as [|c r] eqn:E; [done|].
  simpl accepts. destruct (Py_UNICODE_ISDECIMAL c) eqn:Ec; [|done].
  apply span_end_cons_length in E.
  assert (Hlen : length (span_end SPACE (span_end DIGIT r)) < length s).
  { pose proof (span_end_length SPACE (span_end DIGIT r)).
    pose proof (span_end_length DIGIT r). lia. }
  assert (Hk : run (STAR SPACE) (span_end DIGIT r) []
            (fun rest0 g => if ma && bool_decide (length s - length rest0 = 0)
                            then None else Some (length s - length rest0, g))
          = Some (length s - length (span_end SPACE (span_end DIGIT r)), [])).
  { rewrite run_STAR, repeat_greedy_max; rewrite top_some; eauto. }
  rewrite repeat_greedy_max; rewrite Hk; eauto.
Qed.

Lemma take_sub_span x c s :
  take (length (c :: s) - length (span_end x s)) (c :: s) = c :: span_run x s.
Proof. simpl length. rewrite length_sub_span. simpl. by rewrite take_span. Qed.

Lemma match_hyphen s ma :
  match_here hyphen_re s ma =
    match hyphen_split s with
    | Some (w1, w2, rest) => Some (length s - length rest, [(2, w2); (1, w1)])
    | None => None
    end.
Proof.
  unfold match_here, hyphen_re, hyphen_split.
  rewrite run_SEQ, run_SUBPATTERN, run_PLUS.
  destruct s as [|c s]; [done|].
  simpl accepts. simpl span_end. simpl span_run.
  destruct (SRE_UNI_IS_WORD c) eqn:Ec; [|done].
  rewrite repeat_greedy_max.
  2:{ right. intros d t Hd. rewrite run_SEQ, run_ONE. simpl accepts. simpl in Hd.
      rewrite bool_decide_eq_false_2; [done|]. intros ->. by rewrite hyphen_not_word in Hd. }
  rewrite take_sub_span.
  destruct (span_end WORD s) as [|c0 r] eqn:E0; [done|].
  rewrite run_SEQ, run_ONE. simpl accepts.
  destruct (bool_decide (c0 = HYPHEN)); [|done].
  rewrite run_SEQ, run_PLUS.
  destruct r as [|c1 r1]; [done|].
  simpl accepts. simpl span_run. simpl span_end.
  destruct (Py_UNICODE_ISSPACE c1) eqn:Ec1; [|done].
  rewrite repeat_greedy_max.
  2:{ right. intros d t Hd. rewrite run_SUBPATTERN, run_PLUS. simpl in Hd. simpl accepts.
      by rewrite (space_not_word d Hd). }
  rewrite run_SUBPATTERN, run_PLUS.
  destruct (span_end SPACE r1) as [|c2 r4] eqn:E2; [done|].
  simpl accepts. simpl span_run. simpl span_end.
  destruct (SRE_UNI_IS_WORD c2) eqn:Ec2; [|done].
  assert (Hlen : length (span_end WORD r4) < length (c :: s)).
  { pose proof (span_end_length WORD r4). pose proof (span_end_length SPACE r1).
    pose proof (span_end_length WORD s). rewrite E0 in *. rewrite E2 in *. simpl in *. lia. }
  rewrite repeat_greedy_max; rewrite top_some by done; eauto.
  by rewrite take_sub_span.
Qed.

(** The examples of the documentation of [re.sub] on empty matches. *)
Example sub_empty_matches :
  sub (STAR (LITERAL "x")) [TEXT (lit "-")] (lit "abxd") = lit "-a-b--d-" /\
  sub (STAR (LITERAL "x")) [TEXT (lit "-")] (lit "abx") = lit "-a-b--".
Proof. by vm_compute. Qed.

Example sub_groups :
  sub hyphen_re [TEXT (lit "<"); GROUPREF 2; TEXT (lit "|"); GROUPREF 1; TEXT (lit ">")]
      (lit "see co-  operative work") = lit "see <operative|co> work".
Proof. by vm_compute. Qed.

(** ** The substitutions, one match at a time *)

Lemma sub_some_suffix p repl pre rest g :
  pre <> [] ->
  match_here p (pre ++ rest) false = Some (length (pre ++ rest) - length rest, g) ->
  sub p repl (pre ++ rest) = expand repl g ++ sub p repl rest.
Proof.
  intros Hpre H. destruct pre as [|c pre]; [done|]. simpl app in *.
  replace (length (c :: pre ++ rest) - length rest) with (S (length pre)) in H
    by (simpl; rewrite length_app; lia).
  rewrite (sub_cons_some _ _ _ _ _ _ H). by rewrite drop_app_length.
Qed.

(** Induction along the matches of a pattern that never matches the
    empty string. *)
Lemma sub_induction p repl (P : str -> str -> Prop) :
  (forall s n g, match_here p s false = Some (n, g) -> 0 < n) ->
  P [] [] ->
  (forall c s out,
     match_here p (c :: s) false = None -> P s out -> P (c :: s) (c :: out)) ->
  (forall s n g out,
     match_here p s false = Some (n, g) -> 0 < n -> n <= length s ->
     P (drop n s) out -> P s (expand repl g ++ out)) ->
  forall s, P s (sub p repl s).
Proof.
  intros Hpos Hnil Hnone Hsome s.
  remember (length s) as m eqn:Hm. revert s Hm.
  induction m as [m IH] using lt_wf_ind. intros s ->.
  destruct s as [|c s].
  - rewrite sub_nil; [done|]. destruct (match_here p [] false) as [[n g]|] eqn:E; [|done].
    pose proof (Hpos _ _ _ E). pose proof (match_here_bound _ _ _ _ _ E). simpl in *. lia.
  - destruct (match_here p (c :: s) false) as [[n g]|] eqn:E.
    + pose proof (Hpos _ _ _ E) as Hn. pose proof (match_here_bound _ _ _ _ _ E) as Hb.
      destruct n as [|n]; [lia|]. rewrite (sub_cons_some _ _ _ _ _ _ E).
      apply (Hsome _ _ _ _ E Hn Hb). simpl. eapply IH; [|done].
      rewrite length_drop. simpl. lia.
    + rewrite (sub_cons_none _ _ _ _ E). apply Hnone; [done|]. eapply IH; [|done]. simpl; lia.
Qed.

(** *** Newlines *)

Lemma collapse_newlines_nil : collapse_newlines [] = [].
Proof. reflexivity. Qed.

Lemma collapse_newlines_LF s :
  collapse_newlines (LF :: s) = SP :: collapse_newlines (span_end (LITERAL LF) s).
Proof.
  unfold collapse_newlines. rewrite (sub_cons_some _ _ _ _ _ _ (match_newlines_LF s false)).
  by rewrite drop_span.
Qed.

Lemma collapse_newlines_other c s :
  c <> LF -> collapse_newlines (c :: s) = c :: collapse_newlines s.
Proof.
  intros Hc. unfold collapse_newlines. by rewrite sub_cons_none by by apply match_newlines_other.
Qed.

Lemma collapse_runs_in_run s :
  collapse_runs true s = collapse_runs false (span_end (LITERAL LF) s).
Proof.
  induction s as [|c s IH]; simpl; [done|].
  destruct (bool_decide (c = LF)) eqn:E; [done|]. simpl. by rewrite E.
Qed.

Lemma collapse_newlines_runs s : collapse_newlines s = collapse_runs false s.
Proof.
  remember (length s) as m eqn:Hm. revert s Hm.
  induction m as [m IH] using lt_wf_ind. intros s ->.
  destruct s as [|c s]; [done|].
  destruct (decide (c = LF)) as [->|Hc].
  - rewrite collapse_newlines_LF. simpl. rewrite collapse_runs_in_run. f_equal.
    eapply IH; [|done]. pose proof (span_end_length (LITERAL LF) s). simpl. lia.
  - rewrite collapse_newlines_other by done. simpl. rewrite bool_decide_eq_false_2 by done.
    f_equal. eapply IH; [|done]. simpl; lia.
Qed.

(** *** Hyphens *)

Lemma app_nil_1 (a b : str) : a ++ b = [] -> a = [].
Proof. by destruct a. Qed.

Lemma app_nil_2 (a b : str) : a ++ b = [] -> b = [].
Proof. by destruct a. Qed.

Lemma hyphen_split_elim s w1 w2 rest :
  hyphen_split s = Some (w1, w2, rest) ->
  exists sp,
    s = w1 ++ HYPHEN :: sp ++ w2 ++ rest /\
    w1 <> [] /\ all_of WORD w1 /\ sp <> [] /\ all_of SPACE sp /\
    w2 <> [] /\ all_of WORD w2 /\ stops WORD rest.
Proof.
  unfold hyphen_split. intros H.
  pose proof (span_split WORD s) as H1. pose proof (span_run_accepted WORD s) as A1.
  destruct (span_run WORD s) as [|a w] eqn:E1; [done|].
  destruct (span_end WORD s) as [|c r] eqn:E2; [done|].
  destruct (bool_decide (c = HYPHEN)) eqn:Ec; [|done]. apply bool_decide_eq_true in Ec as ->.
  pose proof (span_split SPACE r) as H2. pose proof (span_run_accepted SPACE r) as A2.
  destruct (span_run SPACE r) as [|b sp] eqn:E3; [done|].
  pose proof (span_split WORD (span_end SPACE r)) as H3.
  pose proof (span_run_accepted WORD (span_end SPACE r)) as A3.
  destruct (span_run WORD (span_end SPACE r)) as [|d w'] eqn:E4; [done|].
  injection H as <- <- <-. exists (b :: sp). split_and!; try done.
  - rewrite H3, H2. done.
  - apply span_end_stops.
Qed.

Lemma hyphen_split_intro w1 sp w2 rest :
  w1 <> [] -> all_of WORD w1 -> sp <> [] -> all_of SPACE sp ->
  w2 <> [] -> all_of WORD w2 -> stops WORD rest ->
  hyphen_split (w1 ++ HYPHEN :: sp ++ w2 ++ rest) = Some (w1, w2, rest).
Proof.
  intros N1 A1 N2 A2 N3 A3 Hrest. unfold hyphen_split.
  assert (stops WORD (HYPHEN :: sp ++ w2 ++ rest)) as S1 by done.
  assert (stops SPACE (w2 ++ rest)) as S2.
  { destruct w2 as [|c w2]; [done|]. simpl. apply word_not_space.
    by inversion A3. }
  rewrite span_run_app, span_end_app by done.
  rewrite (span_run_stopped _ _ S1), (span_end_stopped _ _ S1), app_nil_r.
  destruct w1 as [|a w1]; [done|]. rewrite bool_decide_eq_true_2 by done.
  rewrite span_run_app, span_end_app by done.
  rewrite (span_run_stopped _ _ S2), (span_end_stopped _ _ S2), app_nil_r.
  destruct sp as [|b sp]; [done|].
  rewrite span_run_app, span_end_app by done.
  rewrite (span_run_stopped _ _ Hrest), (span_end_stopped _ _ Hrest), app_nil_r.
  destruct w2 as [|d w2]; done.
Qed.

Lemma rejoin_hyphens_nil : rejoin_hyphens [] = [].
Proof. reflexivity. Qed.

Lemma rejoin_hyphens_some s w1 w2 rest :
  hyphen_split s = Some (w1, w2, rest) ->
  rejoin_hyphens s = w1 ++ w2 ++ rejoin_hyphens rest.
Proof.
  intros H. pose proof (match_hyphen s false) as Hm. rewrite H in Hm.
  apply hyphen_split_elim in H as (sp & -> & N1 & _).
  unfold rejoin_hyphens.
  assert (E : w1 ++ HYPHEN :: sp ++ w2 ++ rest = (w1 ++ HYPHEN :: sp ++ w2) ++ rest).
  { rewrite <- app_assoc. simpl. by rewrite <- app_assoc. }
  rewrite E in *. rewrite (sub_some_suffix _ hyphen_repl _ _ _ (fun H => N1 (app_nil_1 _ _ H)) Hm).
  simpl. by rewrite app_nil_r, <- app_assoc.
Qed.

Lemma rejoin_hyphens_none c s :
  hyphen_split (c :: s) = None -> rejoin_hyphens (c :: s) = c :: rejoin_hyphens s.
Proof.
  intros H. unfold rejoin_hyphens. rewrite sub_cons_none; [done|].
  by rewrite match_hyphen, H.
Qed.

(** *** Numbers *)

Lemma number_split_elim s rest :
  number_split s = Some rest ->
  exists a d b,
    s = a ++ d ++ b ++ rest /\
    all_of SPACE a /\ d <> [] /\ all_of DIGIT d /\ all_of SPACE b /\ stops SPACE rest.
Proof.
  unfold number_split. intros H.
  pose proof (span_split SPACE s) as H1. pose proof (span_run_accepted SPACE s) as A1.
  destruct (span_end SPACE s) as [|c r] eqn:E; [done|].
  destruct (Py_UNICODE_ISDECIMAL c) eqn:Ec; [|done]. injection H as <-.
  exists (span_run SPACE s), (c :: span_run DIGIT r), (span_run SPACE (span_end DIGIT r)).
  split_and!; try done.
  - simpl. by rewrite !span_split.
  - constructor; [done|]. apply span_run_accepted.
  - apply span_run_accepted.
  - apply span_end_stops.
Qed.

Lemma number_split_intro a d b rest :
  all_of SPACE a -> d <> [] -> all_of DIGIT d -> all_of SPACE b ->
  stops SPACE rest -> stops DIGIT (b ++ rest) ->
  number_split (a ++ d ++ b ++ rest) = Some rest.
Proof.
  intros A1 N A2 A3 S1 S2. unfold number_split.
  destruct d as [|c d]; [done|]. inversion A2 as [|? ? Hc Hd]; subst.
  assert (stops SPACE ((c :: d) ++ b ++ rest)) as S0 by (by apply digit_not_space).
  rewrite span_end_app, (span_end_stopped _ _ S0) by done. simpl in Hc. simpl. rewrite Hc.
  rewrite span_end_app, (span_end_stopped _ _ S2) by done.
  by rewrite span_end_app, (span_end_stopped _ _ S1).
Qed.

Lemma remove_numbers_nil : remove_numbers [] = [].
Proof. reflexivity. Qed.

Lemma remove_numbers_some s rest :
  number_split s = Some rest -> remove_numbers s = SP :: remove_numbers rest.
Proof.
  intros H. pose proof (match_number s false) as Hm. rewrite H in Hm.
  apply number_split_elim in H as (a & d & b & -> & _ & N & _).
  unfold remove_numbers. rewrite !app_assoc in *.
  rewrite (sub_some_suffix _ [TEXT [SP]] _ _ _
             (fun H => N (app_nil_2 _ _ (app_nil_1 _ _ H))) Hm).
  done.
Qed.

Lemma remove_numbers_none c s :
  number_split (c :: s) = None -> remove_numbers (c :: s) = c :: remove_numbers s.
Proof.
  intros H. unfold remove_numbers. rewrite sub_cons_none; [done|].
  by rewrite match_number, H.
Qed.

(** *** What a match covers and what replaces it *)

Lemma length_app_sub (pre rest : str) : length (pre ++ rest) - length rest = length pre.
Proof. rewrite length_app. lia. Qed.

Lemma match_newlines_inv s n g :
  match_here newlines_re s false = Some (n, g) ->
  exists pre rest,
    s = pre ++ rest /\ n = length pre /\ pre <> [] /\ all_of (LITERAL LF) pre.
Proof.
  destruct s as [|c s]; [done|]. destruct (decide (c = LF)) as [->|Hc].
  - rewrite match_newlines_LF. intros [= <- <-].
    exists (LF :: span_run (LITERAL LF) s), (span_end (LITERAL LF) s). split_and!; try done.
    + simpl. by rewrite span_split.
    + constructor; [done|]. apply span_run_accepted.
  - by rewrite match_newlines_other.
Qed.

Lemma match_hyphen_inv s n g :
  match_here hyphen_re s false = Some (n, g) ->
  exists w1 sp w2 rest,
    s = (w1 ++ HYPHEN :: sp ++ w2) ++ rest /\ n = length (w1 ++ HYPHEN :: sp ++ w2) /\
    expand hyphen_repl g = w1 ++ w2 /\
    w1 <> [] /\ all_of WORD w1 /\ sp <> [] /\ all_of SPACE sp /\ w2 <> [] /\ all_of WORD w2.
Proof.
  rewrite match_hyphen. destruct (hyphen_split s) as [[[w1 w2] rest]|] eqn:E; [|done].
  intros [= <- <-]. apply hyphen_split_elim in E as (sp & -> & ? & ? & ? & ? & ? & ? & _).
  exists w1, sp, w2, rest.
  assert (E : w1 ++ HYPHEN :: sp ++ w2 ++ rest = (w1 ++ HYPHEN :: sp ++ w2) ++ rest).
  { rewrite <- app_assoc. simpl. by rewrite <- app_assoc. }
  rewrite E, length_app_sub. split_and!; try done. simpl. by rewrite app_nil_r.
Qed.

Lemma match_number_inv s n g :
  match_here number_re s false = Some (n, g) ->
  exists a d b rest,
    s = (a ++ d ++ b) ++ rest /\ n = length (a ++ d ++ b) /\
    all_of SPACE a /\ d <> [] /\ all_of DIGIT d /\ all_of SPACE b.
Proof.
  rewrite match_number. destruct (number_split s) as [rest|] eqn:E; [|done].
  intros [= <- <-]. apply number_split_elim in E as (a & d & b & -> & ? & ? & ? & ? & _).
  exists a, d, b, rest.
  assert (E : a ++ d ++ b ++ rest = (a ++ d ++ b) ++ rest) by (by rewrite <- !app_assoc).
  rewrite E, length_app_sub. done.
Qed.

Lemma length_pos_nonempty (s : str) : s <> [] -> 0 < length s.
Proof. destruct s; simpl; [done|lia]. Qed.

Lemma newlines_never_empty s n g : match_here newlines_re s false = Some (n, g) -> 0 < n.
Proof.
  intros H. apply match_newlines_inv in H as (pre & rest & _ & -> & N & _).
  by apply length_pos_nonempty.
Qed.

Lemma hyphen_never_empty s n g : match_here hyphen_re s false = Some (n, g) -> 0 < n.
Proof.
  intros H. apply match_hyphen_inv in H as (w1 & sp & w2 & rest & _ & -> & _ & N & _).
  apply length_pos_nonempty. by destruct w1.
Qed.

Lemma number_never_empty s n g : match_here number_re s false = Some (n, g) -> 0 < n.
Proof.
  intros H. apply match_number_inv in H as (a & d & b & rest & _ & -> & _ & N & _).
  apply length_pos_nonempty. destruct a; [|done]. by destruct d.
Qed.

(** ** What survives a substitution *)

Lemma sub_keeps p repl (keep : ascii -> Prop) :
  (forall s n g, match_here p s false = Some (n, g) -> 0 < n) ->
  (forall s n g c,
     match_here p s false = Some (n, g) -> c ∈ take n s -> keep c -> c ∈ expand repl g) ->
  forall s c, c ∈ s -> keep c -> c ∈ sub p repl s.
Proof.
  intros Hpos Hrepl s.
  apply (sub_induction p repl (fun s out => forall c, c ∈ s -> keep c -> c ∈ out)).
  - done.
  - intros c Hc. by apply elem_of_nil in Hc.
  - intros d t out _ IH c Hc Hk. apply elem_of_cons in Hc as [->|Hc].
    + apply elem_of_cons. by left.
    + apply elem_of_cons. right. by apply IH.
  - intros t n g out Hm _ _ IH c Hc Hk. rewrite <- (take_drop n t) in Hc.
    apply elem_of_app in Hc as [Hc|Hc]; apply elem_of_app; [left|right].
    + by eapply Hrepl.
    + by apply IH.
Qed.

(** ** Running the body of the [try] *)

Lemma set_heap_set_heap h1 h2 w : set_heap h2 (set_heap h1 w) = set_heap h2 w.
Proof. reflexivity. Qed.

Lemma set_heap_id w : set_heap (heap w) w = w.
Proof. by destruct w. Qed.

Lemma for_each_gather l ps acc w :
  heap w !! l = Some (Strs acc) ->
  for_each ps (fun page =>
      text <- call_extract_text page ;;
      if bool_decide (text <> []) then append l text else ret tt) w
  = (fst (gather ps acc), set_heap (<[l := Strs (snd (gather ps acc))]> (heap w)) w).
Proof.
  revert acc w. induction ps as [|p ps IH]; intros acc w Hl; simpl.
  - unfold ret. by rewrite list_insert_id, set_heap_id.
  - unfold bind at 1. unfold bind at 1. unfold call_extract_text at 1.
    destruct (extract_text p) as [t|e]; simpl.
    + destruct (bool_decide (t <> [])) eqn:Et.
      * unfold append at 1. rewrite Hl.
        rewrite (IH (acc ++ [t])).
        -- simpl. by rewrite list_insert_insert_eq.
        -- simpl. apply list_lookup_insert_eq. by eapply lookup_lt_Some.
      * unfold ret at 1. by apply IH.
    + by rewrite list_insert_id, set_heap_id.
Qed.

Lemma normalize_pages_run l ps w :
  heap w !! l = Some (Pages ps) ->
  normalize_pages l w = (pages_outcome ps, pages_world ps w).
Proof.
  intros Hl. unfold normalize_pages, pages_outcome, pages_world.
  unfold bind at 1. unfold get_pages. rewrite Hl. unfold ret at 1.
  destruct ps as [|p ps]; [done|].
  rewrite !bool_decide_eq_false_2 by done.
  unfold bind at 1. unfold new_list at 1.
  unfold bind at 1.
  rewrite (for_each_gather _ _ []).
  2:{ simpl. by rewrite lookup_app_r, Nat.sub_diag by lia. }
  simpl heap. rewrite set_heap_set_heap.
  replace (<[length (heap w):=Strs (snd (gather (p :: ps) []))]> (heap w ++ [Strs []]))
    with (heap w ++ [Strs (snd (gather (p :: ps) []))]).
  2:{ rewrite insert_app_r_alt by lia. by rewrite Nat.sub_diag. }
  destruct (gather (p :: ps) []) as [[[]|e] texts]; simpl; [|done].
  unfold bind at 1. unfold get_strs at 1. simpl heap.
  rewrite lookup_app_r, Nat.sub_diag by lia. simpl. unfold ret at 1.
  destruct (bool_decide (texts = [])); done.
Qed.

Lemma gather_document texts acc :
  gather (document texts) acc = (Returns tt, acc ++ readable texts).
Proof.
  revert acc. induction texts as [|t texts IH]; intros acc; simpl.
  - by rewrite app_nil_r.
  - rewrite IH. unfold readable. destruct (decide (t <> [])) as [Ht|Ht].
    + rewrite bool_decide_eq_true_2, filter_cons_True by done. by rewrite <- app_assoc.
    + rewrite bool_decide_eq_false_2, filter_cons_False by done. done.
Qed.

Lemma normalize_unfold texts :
  normalize texts =
    if bool_decide (texts = []) then Raises (Exc ValueError NO_PAGES)
    else if bool_decide (readable texts = []) then Raises (Exc ValueError NO_TEXT)
    else Returns (clean (join [LF] (readable texts))).
Proof.
  unfold normalize. rewrite (normalize_pages_run _ (document texts)) by done.
  simpl. unfold pages_outcome. rewrite gather_document. simpl.
  destruct texts; done.
Qed.

(** ** [join] and [strip] *)

Lemma join_elem sep parts t c : t ∈ parts -> c ∈ t -> c ∈ join sep parts.
Proof.
  induction parts as [|p ps IH]; intros Ht Hc.
  - by apply elem_of_nil in Ht.
  - apply elem_of_cons in Ht as [->|Ht].
    + destruct ps; simpl; [done|]. apply elem_of_app. by left.
    + destruct ps as [|q ps]; [by apply elem_of_nil in Ht|].
      change (c ∈ p ++ sep ++ join sep (q :: ps)). rewrite !elem_of_app. right; right. by apply IH.
Qed.

Lemma lstrip_span s : lstrip s = span_end SPACE s.
Proof. induction s as [|c s IH]; simpl; [done|]. by rewrite IH. Qed.

Lemma lstrip_keeps s c : c ∈ s -> Py_UNICODE_ISSPACE c = false -> c ∈ lstrip s.
Proof.
  intros Hc Hs. induction s as [|d s IH]; [done|]. simpl.
  destruct (Py_UNICODE_ISSPACE d) eqn:Ed; [|done].
  apply elem_of_cons in Hc as [->|Hc]; [congruence|by apply IH].
Qed.

Lemma strip_keeps s c : c ∈ s -> Py_UNICODE_ISSPACE c = false -> c ∈ strip s.
Proof.
  intros Hc Hs. unfold strip, rstrip. apply elem_of_reverse, lstrip_keeps; [|done].
  by apply elem_of_reverse, lstrip_keeps.
Qed.

(** ** A solid character survives the cleaning *)

Lemma all_of_elem x s c : all_of x s -> c ∈ s -> accepts x c = true.
Proof. unfold all_of. rewrite Forall_forall. eauto. Qed.

Lemma collapse_newlines_keeps s c : c ∈ s -> solid c -> c ∈ collapse_newlines s.
Proof.
  apply sub_keeps; [apply newlines_never_empty|].
  intros t n g d Hm Hd (Hs & _). exfalso.
  apply match_newlines_inv in Hm as (pre & rest & -> & -> & _ & A).
  rewrite take_app_length in Hd. pose proof (all_of_elem _ _ _ A Hd) as Hacc.
  simpl in Hacc. apply bool_decide_eq_true in Hacc as ->. by rewrite LF_is_space in Hs.
Qed.

Lemma rejoin_hyphens_keeps s c : c ∈ s -> solid c -> c ∈ rejoin_hyphens s.
Proof.
  apply sub_keeps; [apply hyphen_never_empty|].
  intros t n g d Hm Hd (Hs & _ & Hh).
  apply match_hyphen_inv in Hm as (w1 & sp & w2 & rest & -> & -> & -> & _ & _ & _ & A & _).
  rewrite take_app_length in Hd. rewrite elem_of_app.
  apply elem_of_app in Hd as [Hd|Hd]; [by left|].
  apply elem_of_cons in Hd as [->|Hd]; [done|].
  apply elem_of_app in Hd as [Hd|Hd]; [|by right].
  pose proof (all_of_elem _ _ _ A Hd) as Hacc. simpl in Hacc. congruence.
Qed.

Lemma remove_numbers_keeps s c : c ∈ s -> solid c -> c ∈ remove_numbers s.
Proof.
  apply sub_keeps; [apply number_never_empty|].
  intros t n g d Hm Hd (Hs & Hn & _). exfalso.
  apply match_number_inv in Hm as (a & ds & b & rest & -> & -> & A & _ & D & B).
  rewrite take_app_length in Hd.
  apply elem_of_app in Hd as [Hd|Hd]; [|apply elem_of_app in Hd as [Hd|Hd]].
  - pose proof (all_of_elem _ _ _ A Hd) as Hacc. simpl in Hacc. congruence.
  - pose proof (all_of_elem _ _ _ D Hd) as Hacc. simpl in Hacc. congruence.
  - pose proof (all_of_elem _ _ _ B Hd) as Hacc. simpl in Hacc. congruence.
Qed.

Lemma clean_keeps s c : c ∈ s -> solid c -> c ∈ clean s.
Proof.
  intros Hc Hs. unfold clean. apply strip_keeps; [|by destruct Hs].
  apply remove_numbers_keeps; [|done]. apply rejoin_hyphens_keeps; [|done].
  by apply collapse_newlines_keeps.
Qed.

Lemma readable_nil_iff texts : readable texts = [] <-> Forall (fun t => t = []) texts.
Proof.
  unfold readable. induction texts as [|t texts IH]; [by split|].
  destruct (decide (t <> [])) as [Ht|Ht].
  - rewrite filter_cons_True by done. split; [done|]. by inversion 1.
  - rewrite filter_cons_False by done. rewrite IH. apply dec_stable in Ht.
    split; [by constructor|by inversion 1].
Qed.

(** ** The claims about [normalize] *)

(** C1 (as the code has it).  [normalize] fails with the empty-document
    error, a [ValueError], exactly when the sequence of page texts is
    empty or every page text is the empty string; in every other case
    it returns.  [normalize([])] fails.  A page of whitespace counts as
    text: [normalize(["   ", ""])] does not fail, it returns the empty
    string. *)
Theorem normalize_fails_iff_no_text (texts : list str) :
  ((texts = [] \/ Forall (fun t => t = []) texts)
     <-> exists msg, normalize texts = Raises (Exc ValueError msg)) /\
  (~ (texts = [] \/ Forall (fun t => t = []) texts)
     <-> exists r, normalize texts = Returns r) /\
  normalize [] = Raises (Exc ValueError NO_PAGES) /\
  normalize [lit "   "; lit ""] = Returns [].
Proof.
  split_and!; [| |reflexivity|by vm_compute].
  - rewrite normalize_unfold. split.
    + intros [->|H]; [by eexists|].
      destruct (bool_decide (texts = [])); [by eexists|].
      apply readable_nil_iff in H. rewrite bool_decide_eq_true_2 by done. by eexists.
    + intros [msg H]. destruct (decide (texts = [])) as [?|Hne]; [by left|right].
      rewrite bool_decide_eq_false_2 in H by done.
      destruct (decide (readable texts = [])) as [E|E]; [by apply readable_nil_iff|].
      by rewrite bool_decide_eq_false_2 in H.
  - rewrite normalize_unfold. split.
    + intros H. destruct (decide (texts = [])) as [?|Hne]; [by destruct H; left|].
      rewrite bool_decide_eq_false_2 by done.
      destruct (decide (readable texts = [])) as [E|E].
      * destruct H. right. by apply readable_nil_iff.
      * rewrite bool_decide_eq_false_2 by done. by eexists.
    + intros [r H] [->|E]; [done|].
      apply readable_nil_iff in E. rewrite E in H.
      by destruct (bool_decide (texts = [])).
Qed.

(** C1, as stated, fails: the pages ["   ", ""] hold whitespace only,
    and [normalize] does not fail on them. *)
Lemma normalize_whitespace_only_returns :
  Forall (fun t => Forall (fun c => Py_UNICODE_ISSPACE c = true) t) [lit "   "; lit ""] /\
  ~ exists e, normalize [lit "   "; lit ""] = Raises e.
Proof.
  split.
  - repeat constructor.
  - intros [e H]. vm_compute in H. discriminate.
Qed.

(** C2 (as the code has it).  When some page holds a character that is
    neither whitespace, nor a decimal digit, nor a hyphen, [normalize]
    succeeds and the string it returns is not empty (it holds that
    character). *)
Theorem normalize_nonempty_of_solid (texts : list str) (t : str) (c : ascii) :
  t ∈ texts -> c ∈ t -> solid c ->
  exists r, normalize texts = Returns r /\ r <> [] /\ c ∈ r.
Proof.
  intros Ht Hc Hs. rewrite normalize_unfold.
  assert (t ∈ readable texts) as Hr.
  { apply list_elem_of_filter. split; [|done]. intros ->. by apply elem_of_nil in Hc. }
  rewrite bool_decide_eq_false_2 by (intros ->; by apply elem_of_nil in Ht).
  rewrite bool_decide_eq_false_2 by (intros E; rewrite E in Hr; by apply elem_of_nil in Hr).
  eexists. split; [done|].
  assert (c ∈ clean (join [LF] (readable texts))) as Hin.
  { apply clean_keeps; [|done]. by eapply join_elem. }
  split; [|done]. intros E. rewrite E in Hin. by apply elem_of_nil in Hin.
Qed.

Lemma normalize_nonempty_of_solid_witness :
  exists r, normalize [lit ""; lit "Page 1 of 2"] = Returns r /\ r <> [] /\ "g"%char ∈ r.
Proof.
  apply (normalize_nonempty_of_solid [lit ""; lit "Page 1 of 2"] (lit "Page 1 of 2") "g"%char).
  - apply elem_of_cons; right. apply elem_of_cons; left. reflexivity.
  - vm_compute. do 2 (apply elem_of_cons; right). apply elem_of_cons; left. reflexivity.
  - split_and!; [reflexivity|reflexivity|discriminate].
Defined.

(** C2, as stated, fails: on a page of whitespace, or on a page that is
    a number, [normalize] succeeds and returns the empty string. *)
Lemma normalize_success_can_be_empty :
  normalize [lit "   "] = Returns [] /\
  normalize [lit "12"] = Returns [] /\
  ~ (forall texts r, normalize texts = Returns r -> r <> []).
Proof.
  split_and!; [by vm_compute|by vm_compute|].
  intros H. by apply (H [lit "   "] []); vm_compute.
Qed.

(** ** Numbers *)

Lemma number_split_digit c s :
  Py_UNICODE_ISDECIMAL c = true -> is_Some (number_split (c :: s)).
Proof.
  intros Hc. unfold number_split. simpl. rewrite (digit_not_space c Hc), Hc. eauto.
Qed.

Lemma remove_numbers_no_digit s c :
  c ∈ remove_numbers s -> Py_UNICODE_ISDECIMAL c = false.
Proof.
  revert c. unfold remove_numbers.
  apply (sub_induction number_re [TEXT [SP]]
           (fun s out => forall c, c ∈ out -> Py_UNICODE_ISDECIMAL c = false)).
  - apply number_never_empty.
  - intros c Hc. by apply elem_of_nil in Hc.
  - intros d t out Hm IH c Hc. apply elem_of_cons in Hc as [->|Hc]; [|by apply IH].
    rewrite match_number in Hm. destruct (Py_UNICODE_ISDECIMAL d) eqn:Ed; [|done].
    destruct (number_split_digit d t Ed) as [rest E]. by rewrite E in Hm.
  - intros t n g out _ _ _ IH c Hc. simpl in Hc.
    apply elem_of_cons in Hc as [->|Hc]; [done|by apply IH].
Qed.

(** The example of the specification for the removal of numbers. *)
Example normalize_page_number :
  normalize [lit "Page 1" ++ [LF] ++ lit "text here"] = Returns (lit "Page text here").
Proof. by vm_compute. Qed.

(** C3.  The code departs from the claim (and from its own comment,
    "removes standalone numbers"): a run of digits inside a word is
    replaced by a space too, ["a1b"] gives ["a b"]; no decimal digit is
    left in the text at all. *)
Theorem remove_numbers_strips_embedded_digits :
  normalize [lit "a1b"] = Returns (lit "a b") /\
  remove_numbers (lit "a1b") = lit "a b" /\
  (forall s c, c ∈ remove_numbers s -> Py_UNICODE_ISDECIMAL c = false).
Proof.
  split_and!; [by vm_compute|by vm_compute|]. apply remove_numbers_no_digit.
Qed.

(** ** Hyphens *)

Lemma hyphen_split_complete s w1 sp w2 rest :
  hyphen_split_word w1 sp w2 -> s = w1 ++ HYPHEN :: sp ++ w2 ++ rest ->
  is_Some (hyphen_split s).
Proof.
  intros (N1 & A1 & N2 & A2 & N3 & A3) ->.
  rewrite <- (span_split WORD rest), (app_assoc w2).
  rewrite hyphen_split_intro; eauto.
  - by destruct w2.
  - apply Forall_app. split; [done|apply span_run_accepted].
  - apply span_end_stops.
Qed.

(** C4 (as the code has it).  The text is scanned from left to right.
    Where a hyphen-split word starts (word characters, a hyphen,
    whitespace, word characters up to the end of the word), the hyphen
    and the whitespace are deleted and the scan goes on after the word;
    where none starts, the character is kept and the scan goes on after
    it.  So the occurrences merged do not overlap.
    [normalize(["co-\noperative"])] returns ["cooperative"]. *)
Theorem rejoin_hyphens_left_to_right :
  (forall w1 sp w2 rest,
     hyphen_split_word w1 sp w2 -> stops WORD rest ->
     rejoin_hyphens (w1 ++ HYPHEN :: sp ++ w2 ++ rest) = w1 ++ w2 ++ rejoin_hyphens rest) /\
  (forall c s,
     ~ (exists w1 sp w2 rest,
          hyphen_split_word w1 sp w2 /\ c :: s = w1 ++ HYPHEN :: sp ++ w2 ++ rest) ->
     rejoin_hyphens (c :: s) = c :: rejoin_hyphens s) /\
  rejoin_hyphens [] = [] /\
  normalize [lit "co-" ++ [LF] ++ lit "operative"] = Returns (lit "cooperative").
Proof.
  split_and!; [| |reflexivity|by vm_compute].
  - intros w1 sp w2 rest (N1 & A1 & N2 & A2 & N3 & A3) Hrest.
    apply rejoin_hyphens_some. by apply hyphen_split_intro.
  - intros c s Hno. apply rejoin_hyphens_none.
    destruct (hyphen_split (c :: s)) as [[[w1 w2] rest]|] eqn:E; [|done].
    destruct Hno. apply hyphen_split_elim in E as (sp & E & ? & ? & ? & ? & ? & ? & _).
    by exists w1, sp, w2, rest.
Qed.

Lemma rejoin_hyphens_left_to_right_witness :
  rejoin_hyphens (lit "co" ++ HYPHEN :: lit " " ++ lit "operative" ++ lit ", ok")
    = lit "co" ++ lit "operative" ++ rejoin_hyphens (lit ", ok") /\
  rejoin_hyphens (lit "x-ray") = "x"%char :: rejoin_hyphens (lit "-ray").
Proof.
  split.
  - apply (proj1 rejoin_hyphens_left_to_right).
    + unfold hyphen_split_word, all_of. split_and!; try discriminate; by repeat constructor.
    + reflexivity.
  - apply (proj1 (proj2 rejoin_hyphens_left_to_right)).
    intros (w1 & sp & w2 & rest & Hw & E).
    destruct (hyphen_split_complete _ _ _ _ _ Hw E) as [r Hr].
    vm_compute in Hr. discriminate.
Defined.

(** C4, as stated, fails: in ["a- b- c"] the occurrence ["b- c"]
    overlaps the one merged before it and is left as it is; the merged
    word ["bc"] is nowhere in the result. *)
Lemma rejoin_hyphens_skips_overlap :
  hyphen_split_word (lit "b") (lit " ") (lit "c") /\
  rejoin_hyphens (lit "a- " ++ lit "b" ++ HYPHEN :: lit " " ++ lit "c" ++ []) = lit "ab- c" /\
  normalize [lit "a- b- c"] = Returns (lit "ab- c") /\
  ~ (forall u w1 sp w2 v,
       hyphen_split_word w1 sp w2 ->
       exists u' v', rejoin_hyphens (u ++ w1 ++ HYPHEN :: sp ++ w2 ++ v) = u' ++ w1 ++ w2 ++ v').
Proof.
  assert (Hw : hyphen_split_word (lit "b") (lit " ") (lit "c")).
  { unfold hyphen_split_word, all_of. split_and!; try discriminate; by repeat constructor. }
  split_and!; [done|by vm_compute|by vm_compute|].
  intros H. destruct (H (lit "a- ") _ _ _ [] Hw) as (u' & v' & E).
  vm_compute in E.
  do 5 (destruct u' as [|? u']; [discriminate|injection E as <- E]).
  by destruct u'.
Qed.

(** ** Newlines *)

Lemma collapse_runs_snoc b u c t :
  c <> LF ->
  collapse_runs b ((u ++ [c]) ++ t) = collapse_runs b (u ++ [c]) ++ collapse_runs false t.
Proof.
  intros Hc. revert b. induction u as [|d u IH]; intros b; simpl.
  - by rewrite bool_decide_eq_false_2.
  - destruct (bool_decide (d = LF)); [destruct b|]; simpl; by rewrite IH.
Qed.

Lemma collapse_runs_app u t :
  last u <> Some LF ->
  collapse_runs false (u ++ t) = collapse_runs false u ++ collapse_runs false t.
Proof.
  intros Hlast. destruct (last u) as [c|] eqn:E.
  - apply last_Some in E as [u' ->]. apply collapse_runs_snoc. congruence.
  - by apply last_None in E as ->.
Qed.

Lemma collapse_runs_no_LF b s : LF ∉ s -> collapse_runs b s = s.
Proof.
  revert b. induction s as [|c s IH]; intros b Hno; [done|]. simpl.
  apply not_elem_of_cons in Hno as [Hc Hs].
  rewrite bool_decide_eq_false_2 by congruence. by rewrite IH.
Qed.

Lemma collapse_runs_run n v :
  head v <> Some LF ->
  collapse_runs false (replicate (S n) LF ++ v) = SP :: collapse_runs false v.
Proof.
  intros Hv. simpl. rewrite collapse_runs_in_run. f_equal. f_equal.
  rewrite span_end_app.
  - apply span_end_stopped. destruct v as [|c v]; simpl in *; [done|].
    apply bool_decide_eq_false_2. congruence.
  - apply Forall_replicate. by apply bool_decide_eq_true_2.
Qed.

Lemma collapse_newlines_run u n v :
  last u <> Some LF -> head v <> Some LF ->
  collapse_newlines (u ++ replicate (S n) LF ++ v)
    = collapse_newlines u ++ SP :: collapse_newlines v.
Proof.
  intros Hu Hv. rewrite !collapse_newlines_runs.
  rewrite collapse_runs_app by done. by rewrite collapse_runs_run.
Qed.

Lemma head_join sep (q : str) ps : q <> [] -> head (join sep (q :: ps)) = head q.
Proof. destruct q as [|c q]; [done|]. by destruct ps. Qed.

Lemma collapse_newlines_join parts :
  Forall (fun p : str => p <> [] /\ head p <> Some LF /\ last p <> Some LF) parts ->
  collapse_newlines (join [LF] parts) = join [SP] (map collapse_newlines parts).
Proof.
  induction 1 as [|p ps (Hne & Hh & Hl) Hps IH]; [done|].
  destruct ps as [|q ps]; [done|].
  change (join [LF] (p :: q :: ps)) with (p ++ replicate 1 LF ++ join [LF] (q :: ps)).
  rewrite collapse_newlines_run; [|done|].
  - by rewrite IH.
  - inversion Hps as [|? ? (Hq & Hhq & _) _]; subst. by rewrite head_join.
Qed.

(** C5.  [normalize] joins the page texts that are not empty, in page
    order, with one newline between two of them (nothing before the
    first, nothing after the last), and cleans the result, first
    collapsing the newlines: every run of one or more newlines becomes
    one space, and a text without newlines is left as it is.  So pages
    that neither start nor end with a newline come out joined by one
    space.  [normalize(["Hello\nworld"])] returns ["Hello world"], and
    [normalize(["one", "", "two"])] returns ["one two"]. *)
Theorem normalize_joins_and_collapses_newlines :
  (forall sep, join sep [] = []) /\
  (forall sep p, join sep [p] = p) /\
  (forall sep p q ps, join sep (p :: q :: ps) = p ++ sep ++ join sep (q :: ps)) /\
  (forall texts,
     filter (fun t => t <> []) texts <> [] ->
     normalize texts =
       Returns (strip (remove_numbers (rejoin_hyphens
                  (collapse_newlines (join [LF] (filter (fun t => t <> []) texts))))))) /\
  (forall u n v,
     last u <> Some LF -> head v <> Some LF ->
     collapse_newlines (u ++ replicate (S n) LF ++ v)
       = collapse_newlines u ++ SP :: collapse_newlines v) /\
  (forall s, LF ∉ s -> collapse_newlines s = s) /\
  (forall parts,
     Forall (fun p : str => p <> [] /\ head p <> Some LF /\ last p <> Some LF) parts ->
     collapse_newlines (join [LF] parts) = join [SP] (map collapse_newlines parts)) /\
  normalize [lit "Hello" ++ [LF] ++ lit "world"] = Returns (lit "Hello world") /\
  normalize [lit "one"; lit ""; lit "two"] = Returns (lit "one two").
Proof.
  split_and!; [done|done|done| | | | |by vm_compute|by vm_compute].
  - intros texts Hr. rewrite normalize_unfold.
    rewrite bool_decide_eq_false_2 by (by intros ->).
    by rewrite bool_decide_eq_false_2.
  - apply collapse_newlines_run.
  - intros s Hs. rewrite collapse_newlines_runs. by apply collapse_runs_no_LF.
  - apply collapse_newlines_join.
Qed.

Lemma normalize_joins_and_collapses_newlines_witness :
  normalize [lit "one"; lit ""; lit "two"] =
    Returns (strip (remove_numbers (rejoin_hyphens
               (collapse_newlines (join [LF] [lit "one"; lit "two"]))))) /\
  collapse_newlines (lit "ab" ++ replicate 3 LF ++ lit "cd")
    = collapse_newlines (lit "ab") ++ SP :: collapse_newlines (lit "cd") /\
  collapse_newlines (lit "ab cd") = lit "ab cd" /\
  collapse_newlines (join [LF] [lit "one"; lit "t" ++ [LF] ++ lit "o"; lit "three"])
    = join [SP] (map collapse_newlines [lit "one"; lit "t" ++ [LF] ++ lit "o"; lit "three"]).
Proof.
  pose proof normalize_joins_and_collapses_newlines
    as (_ & _ & _ & Hjoin & Hrun & Hplain & Hparts & _).
  split_and!.
  - apply (Hjoin [lit "one"; lit ""; lit "two"]). vm_compute. discriminate.
  - apply (Hrun (lit "ab") 2 (lit "cd")); vm_compute; discriminate.
  - apply (Hplain (lit "ab cd")). vm_compute. intros H.
    repeat (apply elem_of_cons in H as [H|H]; [discriminate|]).
    by apply elem_of_nil in H.
  - apply (Hparts [lit "one"; lit "t" ++ [LF] ++ lit "o"; lit "three"]).
    repeat constructor; vm_compute; discriminate.
Defined.

(** ** The boundary of [extract_and_clean_text_from_pdf] *)

Lemma gather_raises before p after e acc :
  Forall (fun q => exists t, extract_text q = Returns t) before ->
  extract_text p = Raises e ->
  fst (gather (before ++ p :: after) acc) = Raises e.
Proof.
  intros Hb Hp. revert acc. induction Hb as [|q before [t Hq] _ IH]; intros acc; simpl.
  - by rewrite Hp.
  - rewrite Hq. apply IH.
Qed.

Lemma extract_handler e w :
  (print (lit "Error extracting text from PDF: " ++ exc_str e) ;;;
   raise (A := str) (Exc ValueError UNREADABLE)) w
  = (Raises (Exc ValueError UNREADABLE),
     set_stdout (stdout w ++ [lit "Error extracting text from PDF: " ++ exc_str e]) w).
Proof. reflexivity. Qed.

(** Every failure of the function is the generic [ValueError]. *)
Lemma extract_raises_only_unreadable pypdf pdf_path w e w' :
  extract_and_clean_text_from_pdf pypdf pdf_path w = (Raises e, w') ->
  e = Exc ValueError UNREADABLE.
Proof.
  unfold extract_and_clean_text_from_pdf, try_except.
  destruct (bind _ _ w) as [[r|e0] w0].
  - discriminate.
  - rewrite extract_handler. congruence.
Qed.

Lemma pages_outcome_document texts : pages_outcome (document texts) = normalize texts.
Proof. unfold normalize. by rewrite (normalize_pages_run _ (document texts)). Qed.

(** X8.  An empty document (no pages, or no page with text) is
    reported at the boundary like any other failure, with the generic
    [ValueError]; the specific message goes to the log only. *)
Lemma extract_reraises_empty_document pypdf pdf_path w b texts :
  fs w !! pdf_path = Some b ->
  pypdf b = Returns (document texts) ->
  Forall (fun t => t = []) texts ->
  exists w' msg,
    extract_and_clean_text_from_pdf pypdf pdf_path w
      = (Raises (Exc ValueError UNREADABLE), w') /\
    stdout w' = stdout w ++ [lit "Error extracting text from PDF: " ++ msg] /\
    (msg = NO_PAGES \/ msg = NO_TEXT).
Proof.
  intros Hf Hb Ht.
  unfold extract_and_clean_text_from_pdf, try_except, bind at 1, PdfReader.
  rewrite Hf, Hb. rewrite (normalize_pages_run _ (document texts)).
  2:{ simpl. by rewrite lookup_app_r, Nat.sub_diag by lia. }
  rewrite pages_outcome_document, normalize_unfold.
  destruct (bool_decide (texts = [])) eqn:E.
  - rewrite extract_handler. eexists _, NO_PAGES. split_and!; [done| |by left].
    unfold pages_world. apply bool_decide_eq_true in E as ->. done.
  - apply readable_nil_iff in Ht. rewrite bool_decide_eq_true_2 by done.
    rewrite extract_handler. eexists _, NO_TEXT. split_and!; [done| |by right].
    unfold pages_world. by destruct (bool_decide (document texts = [])).
Qed.

(** C6.  Whatever exception the extraction backend raises (on opening
    the file, on reading it, or on extracting a page), the function
    raises the same [ValueError] with the fixed message "Unable to
    extract text from the PDF. Please upload a readable document."; the
    original error only goes to the log. *)
Theorem extract_failure_is_generic pypdf pdf_path w e :
  backend_raises pypdf pdf_path w e ->
  exists w',
    extract_and_clean_text_from_pdf pypdf pdf_path w
      = (Raises (Exc ValueError UNREADABLE), w') /\
    stdout w' = stdout w ++ [lit "Error extracting text from PDF: " ++ exc_str e].
Proof.
  intros H. unfold extract_and_clean_text_from_pdf, try_except, bind at 1, PdfReader.
  destruct H as [Hf|b e Hf Hb|b before p after e Hf Hb Hpre Hp]; rewrite Hf.
  - rewrite extract_handler. by eexists.
  - rewrite Hb. rewrite extract_handler. by eexists.
  - rewrite Hb. rewrite (normalize_pages_run _ (before ++ p :: after)).
    2:{ simpl. by rewrite lookup_app_r, Nat.sub_diag by lia. }
    unfold pages_outcome.
    rewrite bool_decide_eq_false_2 by (by destruct before).
    pose proof (gather_raises before p after e [] Hpre Hp) as Hg.
    destruct (gather (before ++ p :: after) []) as [o texts]. simpl in Hg. subst o.
    rewrite extract_handler. eexists. split; [done|].
    unfold pages_world. by destruct (bool_decide _).
Qed.

Lemma extract_failure_is_generic_witness :
  let pypdf : pdf_library :=
    fun _ => Returns [Page (Returns (lit "one")); Page (Raises (Exc (OtherError "PdfReadError") (lit "EOF marker not found")))] in
  let w := set_fs {[ lit "/tmp/x.pdf" := [] ]} empty_world in
  exists w',
    extract_and_clean_text_from_pdf pypdf (lit "/tmp/x.pdf") w
      = (Raises (Exc ValueError UNREADABLE), w') /\
    stdout w' = [lit "Error extracting text from PDF: EOF marker not found"].
Proof.
  intros pypdf w.
  apply (extract_failure_is_generic pypdf (lit "/tmp/x.pdf") w
           (Exc (OtherError "PdfReadError") (lit "EOF marker not found"))).
  apply (page_raises _ _ _ [] [Page (Returns (lit "one"))]
           (Page (Raises (Exc (OtherError "PdfReadError") (lit "EOF marker not found")))) []).
  - apply lookup_singleton_eq.
  - reflexivity.
  - repeat constructor. by eexists.
  - reflexivity.
Defined.

(** ** [normalize] has no effect *)


(** C7.  Run on a list that holds the page texts, the body of
    [normalize] returns what [normalize] gives for these texts, whatever
    else the world holds; it leaves the input list and every object
    that existed as they were, writes nothing, touches no file, sends
    nothing; a second run gives the same result. *)
Theorem normalize_is_pure (l : loc) (texts : list str) (w : world) :
  heap w !! l = Some (Pages (document texts)) ->
  let r := fst (normalize_pages l w) in
  let w' := snd (normalize_pages l w) in
  r = normalize texts /\
  heap w' !! l = Some (Pages (document texts)) /\
  (forall l', l' < length (heap w) -> heap w' !! l' = heap w !! l') /\
  stdout w' = stdout w /\ fs w' = fs w /\ outbox w' = outbox w /\
  user_session w' = user_session w /\ tmp_pdf_path w' = tmp_pdf_path w /\
  fst (normalize_pages l w') = r.
Proof.
  intros Hl. simpl. rewrite (normalize_pages_run _ _ _ Hl). simpl.
  assert (Hold : forall l', l' < length (heap w) ->
            heap (pages_world (document texts) w) !! l' = heap w !! l').
  { intros l' Hl'. unfold pages_world. destruct (bool_decide _); [done|].
    simpl. by rewrite lookup_app_l. }
  assert (Hl2 : heap (pages_world (document texts) w) !! l = Some (Pages (document texts))).
  { rewrite Hold; [done|]. by eapply lookup_lt_Some. }
  split_and!; try done.
  - apply pages_outcome_document.
  - unfold pages_world. by destruct (bool_decide _).
  - unfold pages_world. by destruct (bool_decide _).
  - unfold pages_world. by destruct (bool_decide _).
  - unfold pages_world. by destruct (bool_decide _).
  - unfold pages_world. by destruct (bool_decide _).
  - by rewrite (normalize_pages_run _ _ _ Hl2).
Qed.

Lemma normalize_is_pure_witness :
  let w := set_stdout [lit "log"]
             (set_heap [Strs [lit "other"]; Pages (document [lit "Hello"; lit ""])] empty_world) in
  let r := fst (normalize_pages 1 w) in
  let w' := snd (normalize_pages 1 w) in
  r = normalize [lit "Hello"; lit ""] /\
  heap w' !! 1 = Some (Pages (document [lit "Hello"; lit ""])) /\
  (forall l', l' < length (heap w) -> heap w' !! l' = heap w !! l') /\
  stdout w' = stdout w /\ fs w' = fs w /\ outbox w' = outbox w /\
  user_session w' = user_session w /\ tmp_pdf_path w' = tmp_pdf_path w /\
  fst (normalize_pages 1 w') = r.
Proof.
  intros w. apply (normalize_is_pure 1 [lit "Hello"; lit ""] w). reflexivity.
Defined.

(** ** The temporary file of [handle_message] *)

Lemma mkstemp_fresh names files n :
  mkstemp names files = Some n -> files !! n = None.
Proof.
  induction names as [|m names IH]; simpl; [done|].
  destruct (bool_decide (files !! m = None)) eqn:E; [|done].
  intros [= <-]. by apply bool_decide_eq_true in E.
Qed.

Arguments lit : simpl never.

Lemma handle_message_pdf env pdf_file others w :
  mime pdf_file = PDF_MIME ->
  handle_message env (pdf_file :: others) w =
    (send (lit "Processing `" ++ name pdf_file ++ lit "`...") [] ;;;
     try_finally (try_except (process_upload env pdf_file) report) cleanup)
      (set_tmp_pdf_path None w).
Proof. intros H. unfold handle_message. by rewrite filter_cons_True. Qed.

Lemma process_upload_str env nm s w n :
  mkstemp (tmp_names env) (fs w) = Some n ->
  process_upload env (Element nm PDF_MIME (StrContent s)) w =
    (Raises (Exc TypeError (lit "a bytes-like object is required, not 'str'")),
     set_fs (<[n := []]> (fs w)) w).
Proof.
  intros Hn. unfold process_upload. cbn [file_data].
  unfold bind at 1, NamedTemporaryFile. by rewrite Hn.
Qed.

Lemma handle_message_str_run env nm s others w n :
  mkstemp (tmp_names env) (fs w) = Some n ->
  handle_message env (Element nm PDF_MIME (StrContent s) :: others) w =
    (Returns tt,
     set_outbox
       (outbox w ++
        [Msg (lit "Processing `" ++ nm ++ lit "`...") (lit "Assistant") []] ++
        [Msg (lit "An unexpected error occurred: "
              ++ lit "a bytes-like object is required, not 'str'") (lit "Assistant") []])
       (set_fs (<[n := []]> (fs w)) (set_tmp_pdf_path None w))).
Proof.
  intros Hn. rewrite handle_message_pdf by done.
  unfold bind at 1, send at 1. unfold try_finally, try_except.
  rewrite (process_upload_str _ _ _ _ n) by done.
  unfold report, send, cleanup. cbn. by rewrite <- app_assoc.
Qed.

(** C8.  The code departs from the claim when the content of the
    upload is a [str]: the temporary file is created, [write] raises
    before [tmp_pdf_path] is bound, and the [finally] clause leaves the
    file where it is. *)
Theorem handle_message_leaves_file_on_write_error env nm s others w n :
  mkstemp (tmp_names env) (fs w) = Some n ->
  let w' := snd (handle_message env (Element nm PDF_MIME (StrContent s) :: others) w) in
  fs w !! n = None /\ fs w' !! n = Some [] /\ tmp_pdf_path w' = None /\
  fst (handle_message env (Element nm PDF_MIME (StrContent s) :: others) w) = Returns tt.
Proof.
  intros Hn. cbv zeta. rewrite (handle_message_str_run _ _ _ _ _ n) by done.
  split_and!; try done; [by eapply mkstemp_fresh|]. apply lookup_insert_eq.
Qed.

Lemma handle_message_leaves_file_on_write_error_witness :
  let env := Env (fun _ => Returns [Page (Returns (lit "Hello"))]) [lit "/tmp/tmpk3v9.pdf"]
                 (fun _ => Raises (Exc ValueError (lit "1 validation error for Action"))) in
  let upload := [Element (lit "notes.pdf") PDF_MIME (StrContent (lit "%PDF-1.4"))] in
  let w' := snd (handle_message env upload empty_world) in
  fs empty_world !! lit "/tmp/tmpk3v9.pdf" = None /\
  fs w' !! lit "/tmp/tmpk3v9.pdf" = Some [] /\ tmp_pdf_path w' = None /\
  fst (handle_message env upload empty_world) = Returns tt.
Proof.
  intros env upload.
  apply (handle_message_leaves_file_on_write_error env (lit "notes.pdf") (lit "%PDF-1.4") []
           empty_world (lit "/tmp/tmpk3v9.pdf")).
  reflexivity.
Defined.

(** When the content is [bytes], the sibling path, the file is removed
    on every exit: the extraction returns or raises, the [finally]
    clause finds [tmp_pdf_path] bound. *)
Lemma extract_frame_eq pypdf pdf_path w r w' :
  extract_and_clean_text_from_pdf pypdf pdf_path w = (r, w') ->
  fs w' = fs w /\ tmp_pdf_path w' = tmp_pdf_path w.
Proof.
  unfold extract_and_clean_text_from_pdf, try_except, bind at 1, PdfReader.
  destruct (fs w !! pdf_path) as [b|]; [|by intros [= <- <-]].
  destruct (pypdf b) as [ps|e]; [|by intros [= <- <-]].
  rewrite (normalize_pages_run _ ps).
  2:{ simpl. by rewrite lookup_app_r, Nat.sub_diag by lia. }
  destruct (pages_outcome ps); unfold pages_world; destruct (bool_decide _);
    by intros [= <- <-].
Qed.

Lemma extract_frame pypdf pdf_path w :
  fs (snd (extract_and_clean_text_from_pdf pypdf pdf_path w)) = fs w /\
  tmp_pdf_path (snd (extract_and_clean_text_from_pdf pypdf pdf_path w)) = tmp_pdf_path w.
Proof.
  destruct (extract_and_clean_text_from_pdf pypdf pdf_path w) as [r w'] eqn:E.
  by eapply extract_frame_eq.
Qed.

Lemma cleanup_bound w n :
  tmp_pdf_path w = Some n ->
  fst (cleanup w) = Returns tt /\ fs (snd (cleanup w)) = delete n (fs w).
Proof.
  intros H. unfold cleanup. rewrite H. unfold bind, path_exists, remove.
  destruct (fs w !! n) as [b|] eqn:E.
  - rewrite bool_decide_eq_true_2 by eauto. by rewrite E.
  - rewrite bool_decide_eq_false_2 by (by intros [? ?]). simpl. by rewrite delete_id.
Qed.

Lemma process_upload_bytes_frame env nm b w n o w1 :
  mkstemp (tmp_names env) (fs w) = Some n ->
  try_except (process_upload env (Element nm PDF_MIME (BytesContent b))) report w = (o, w1) ->
  fs w1 = <[n := b]> (<[n := []]> (fs w)) /\ tmp_pdf_path w1 = Some n.
Proof.
  intros Hn. unfold try_except, process_upload. cbn [file_data].
  unfold bind at 1, NamedTemporaryFile. rewrite Hn.
  unfold bind at 1, write. unfold bind at 1, assign_tmp_pdf_path. unfold bind at 1.
  match goal with |- context [extract_and_clean_text_from_pdf ?p ?q ?w0] =>
    pose proof (extract_frame p q w0) as [Hf Ht];
    destruct (extract_and_clean_text_from_pdf p q w0) as [[r|e] w4]
  end; simpl in Hf, Ht.
  - unfold bind, session_set, send, ret, call_Action.
    destruct (bool_decide (r <> [])); [|simpl; by intros [= <- <-]].
    destruct (cl_Action env (lit "create_quiz")) as [a|e]; [simpl; by intros [= <- <-]|].
    unfold report, send. destruct (exc_type e); simpl; by intros [= <- <-].
  - unfold report, send. destruct (exc_type e); simpl; by intros [= <- <-].
Qed.

Lemma handle_message_removes_file_when_written env nm b others w n :
  mkstemp (tmp_names env) (fs w) = Some n ->
  fs (snd (handle_message env (Element nm PDF_MIME (BytesContent b) :: others) w)) = fs w.
Proof.
  intros Hn. rewrite handle_message_pdf by done.
  unfold bind at 1, send at 1. unfold try_finally.
  match goal with |- context [try_except ?body report ?w0] =>
    destruct (try_except body report w0) as [r w1] eqn:E;
    apply (process_upload_bytes_frame env nm b w0 n r w1 Hn) in E as [Hf Ht]
  end; simpl in Hf, Ht.
  destruct (cleanup_bound w1 n Ht) as [Hc Hd].
  destruct (cleanup w1) as [[[]|e] w2]; simpl in *; [|done].
  rewrite Hd, Hf. rewrite !delete_insert_eq. apply delete_id. by eapply mkstemp_fresh.
Qed.

(** ** The prompts *)

(** C9.  The result of [summarize_text] is the fixed instruction, the
    text, and the fixed ending "Summary:"; the function is a function of
    the text alone, it calls nothing. *)
Theorem summarize_text_is_template (text : str) :
  summarize_text text = SUMMARY_HEAD ++ text ++ SUMMARY_TAIL /\
  length (summarize_text text) = length SUMMARY_HEAD + length text + length SUMMARY_TAIL /\
  exists head tail, forall t, summarize_text t = head ++ t ++ tail.
Proof.
  split_and!; [done| |by exists SUMMARY_HEAD, SUMMARY_TAIL].
  unfold summarize_text. rewrite !length_app. lia.
Qed.

(** C10.  [generate_quiz] returns a list of one string: the fixed
    refusal for the empty text, otherwise a prompt that holds the
    text between a fixed instruction and the ending "Quiz:". *)
Theorem generate_quiz_single (original_text : str) :
  length (generate_quiz original_text) = 1 /\
  (original_text = [] -> generate_quiz original_text = [NO_QUIZ]) /\
  (original_text <> [] ->
     generate_quiz original_text = [QUIZ_HEAD ++ original_text ++ QUIZ_TAIL]).
Proof.
  unfold generate_quiz. destruct (decide (original_text = [])) as [->|H].
  - by split_and!.
  - rewrite bool_decide_eq_false_2 by done. by split_and!.
Qed.

Lemma generate_quiz_single_witness :
  generate_quiz [] = [NO_QUIZ] /\
  generate_quiz (lit "Water boils at 100 C.")
    = [QUIZ_HEAD ++ lit "Water boils at 100 C." ++ QUIZ_TAIL].
Proof.
  split.
  - apply (proj1 (proj2 (generate_quiz_single []))). reflexivity.
  - apply (proj2 (proj2 (generate_quiz_single (lit "Water boils at 100 C.")))). discriminate.
Defined.

(** * Further properties of the cleaning *)

(** ** Where the characters of a substitution come from, and its length *)

Lemma sub_elem_of p repl (R : ascii -> Prop) :
  (forall s n g, match_here p s false = Some (n, g) -> 0 < n) ->
  (forall s n g c,
     match_here p s false = Some (n, g) -> c ∈ expand repl g -> c ∈ take n s \/ R c) ->
  forall s c, c ∈ sub p repl s -> c ∈ s \/ R c.
Proof.
  intros Hpos Hrepl s.
  apply (sub_induction p repl (fun s out => forall c, c ∈ out -> c ∈ s \/ R c)).
  - done.
  - intros c Hc. by apply elem_of_nil in Hc.
  - intros d t out _ IH c Hc. apply elem_of_cons in Hc as [->|Hc].
    + left. apply elem_of_cons. by left.
    + destruct (IH c Hc) as [H|H]; [left|by right]. apply elem_of_cons. by right.
  - intros t n g out Hm _ _ IH c Hc. apply elem_of_app in Hc as [Hc|Hc].
    + destruct (Hrepl _ _ _ _ Hm Hc) as [H|H]; [left|by right].
      rewrite <- (take_drop n t). apply elem_of_app. by left.
    + destruct (IH c Hc) as [H|H]; [left|by right].
      rewrite <- (take_drop n t). apply elem_of_app. by right.
Qed.

Lemma sub_length p repl :
  (forall s n g, match_here p s false = Some (n, g) -> 0 < n) ->
  (forall s n g, match_here p s false = Some (n, g) -> length (expand repl g) <= n) ->
  forall s, length (sub p repl s) <= length s.
Proof.
  intros Hpos Hrepl s.
  apply (sub_induction p repl (fun s out => length out <= length s)).
  - done.
  - done.
  - intros d t out _ IH. simpl. lia.
  - intros t n g out Hm _ Hn IH. rewrite length_app. rewrite length_drop in IH.
    pose proof (Hrepl _ _ _ Hm). lia.
Qed.

Lemma collapse_newlines_elem s c : c ∈ collapse_newlines s -> c ∈ s \/ c = SP.
Proof.
  apply (sub_elem_of newlines_re [TEXT [SP]] (fun c => c = SP)); [apply newlines_never_empty|].
  intros t n g d _ Hd. right. simpl in Hd. apply elem_of_cons in Hd as [->|Hd]; [done|].
  by apply elem_of_nil in Hd.
Qed.

Lemma rejoin_hyphens_elem s c : c ∈ rejoin_hyphens s -> c ∈ s.
Proof.
  intros H. apply (sub_elem_of hyphen_re hyphen_repl (fun _ => False)) in H.
  - by destruct H.
  - apply hyphen_never_empty.
  - intros t n g d Hm Hd. left.
    apply match_hyphen_inv in Hm as (w1 & sp & w2 & rest & -> & -> & E & _).
    rewrite E in Hd. rewrite take_app_length.
    apply elem_of_app in Hd as [Hd|Hd]; apply elem_of_app; [by left|right].
    apply elem_of_cons. right. apply elem_of_app. by right.
Qed.

Lemma remove_numbers_elem s c : c ∈ remove_numbers s -> c ∈ s \/ c = SP.
Proof.
  apply (sub_elem_of number_re [TEXT [SP]] (fun c => c = SP)); [apply number_never_empty|].
  intros t n g d _ Hd. right. simpl in Hd. apply elem_of_cons in Hd as [->|Hd]; [done|].
  by apply elem_of_nil in Hd.
Qed.

Lemma lstrip_elem s c : c ∈ lstrip s -> c ∈ s.
Proof.
  intros H. rewrite lstrip_span in H. rewrite <- (span_split SPACE s).
  apply elem_of_app. by right.
Qed.

Lemma strip_elem s c : c ∈ strip s -> c ∈ s.
Proof.
  unfold strip, rstrip. intros H.
  rewrite elem_of_reverse in H. apply lstrip_elem in H. rewrite elem_of_reverse in H.
  by apply lstrip_elem.
Qed.

Lemma collapse_runs_no_newline b s : LF ∉ collapse_runs b s.
Proof.
  revert b. induction s as [|c s IH]; intros b; simpl; [by apply not_elem_of_nil|].
  destruct (bool_decide (c = LF)) eqn:E.
  - destruct b; [apply IH|]. apply not_elem_of_cons. split; [done|apply IH].
  - apply bool_decide_eq_false in E. apply not_elem_of_cons. split; [congruence|apply IH].
Qed.

Lemma clean_elem s c :
  c ∈ clean s -> (c ∈ s \/ c = SP) /\ c <> LF /\ Py_UNICODE_ISDECIMAL c = false.
Proof.
  unfold clean. intros H. apply strip_elem in H.
  pose proof (remove_numbers_no_digit _ _ H) as Hd.
  assert (Hsrc : c = SP \/ c ∈ collapse_newlines s).
  { apply remove_numbers_elem in H as [H|H]; [|by left]. right. by apply rejoin_hyphens_elem. }
  split_and!; [| |done].
  - destruct Hsrc as [?|H']; [by right|]. by apply collapse_newlines_elem.
  - destruct Hsrc as [->|H']; [done|]. intros ->.
    rewrite collapse_newlines_runs in H'. by apply collapse_runs_no_newline in H'.
Qed.

Lemma join_elem_inv sep parts c :
  c ∈ join sep parts -> c ∈ sep \/ exists t, t ∈ parts /\ c ∈ t.
Proof.
  induction parts as [|p ps IH]; intros H; [by apply elem_of_nil in H|].
  destruct ps as [|q ps].
  - right. exists p. split; [apply elem_of_cons; by left|done].
  - change (c ∈ p ++ sep ++ join sep (q :: ps)) in H.
    rewrite !elem_of_app in H. destruct H as [H|[H|H]].
    + right. exists p. split; [apply elem_of_cons; by left|done].
    + by left.
    + destruct (IH H) as [?|(t & Ht & Hc)]; [by left|].
      right. exists t. split; [apply elem_of_cons; by right|done].
Qed.

(** X1.  Every character of the text [normalize] returns is a character
    of some page or a space; none is a newline and none is a decimal
    digit. *)
Theorem normalize_result_characters (texts : list str) (r : str) (c : ascii) :
  normalize texts = Returns r -> c ∈ r ->
  ((exists t, t ∈ texts /\ c ∈ t) \/ c = SP) /\
  c <> LF /\ Py_UNICODE_ISDECIMAL c = false.
Proof.
  rewrite normalize_unfold. destruct (bool_decide (texts = [])); [done|].
  destruct (bool_decide (readable texts = [])); [done|].
  intros [= <-] Hc. apply clean_elem in Hc as ([Hc| ->] & Hn & Hd); split_and!; try done.
  - apply join_elem_inv in Hc as [Hc|(t & Ht & Hc)].
    + apply elem_of_cons in Hc as [->|Hc]; [done|]. by apply elem_of_nil in Hc.
    + left. exists t. split; [|done]. by apply list_elem_of_filter in Ht as [_ ?].
  - by right.
Qed.

Lemma normalize_result_characters_witness :
  ((exists t, t ∈ [lit "Page 1"; lit "b2b"] /\ "b"%char ∈ t) \/ "b"%char = SP) /\
  "b"%char <> LF /\ Py_UNICODE_ISDECIMAL "b" = false.
Proof.
  apply (normalize_result_characters [lit "Page 1"; lit "b2b"] (lit "Page b b") "b"%char).
  - by vm_compute.
  - vm_compute. do 5 (apply elem_of_cons; right). apply elem_of_cons; left. reflexivity.
Defined.

(** ** The ends of the result *)

Lemma lstrip_head s c : head (lstrip s) = Some c -> Py_UNICODE_ISSPACE c = false.
Proof.
  rewrite lstrip_span. pose proof (span_end_stops SPACE s) as H.
  destruct (span_end SPACE s); [done|]. by intros [= <-].
Qed.

Lemma lstrip_last s c : last (lstrip s) = Some c -> last s = Some c.
Proof.
  rewrite lstrip_span. intros H. rewrite <- (span_split SPACE s).
  destruct (span_end SPACE s) as [|d t] eqn:E; [done|]. by rewrite last_app, H.
Qed.

Lemma strip_ends s c :
  head (strip s) = Some c \/ last (strip s) = Some c -> Py_UNICODE_ISSPACE c = false.
Proof.
  unfold strip, rstrip. intros [H|H].
  - rewrite head_reverse in H. apply lstrip_last in H. rewrite last_reverse in H.
    by apply lstrip_head in H.
  - rewrite last_reverse in H. by apply lstrip_head in H.
Qed.

(** X2.  The text [normalize] returns neither starts nor ends with
    whitespace. *)
Theorem normalize_result_trimmed (texts : list str) (r : str) (c : ascii) :
  normalize texts = Returns r ->
  head r = Some c \/ last r = Some c ->
  Py_UNICODE_ISSPACE c = false.
Proof.
  rewrite normalize_unfold. destruct (bool_decide (texts = [])); [done|].
  destruct (bool_decide (readable texts = [])); [done|].
  intros [= <-]. apply strip_ends.
Qed.

Lemma normalize_result_trimmed_witness : Py_UNICODE_ISSPACE "d" = false.
Proof.
  apply (normalize_result_trimmed [lit "  Hello" ++ [LF]; lit "world 7 "] (lit "Hello world") "d"%char).
  - by vm_compute.
  - right. by vm_compute.
Defined.

(** ** The length of the result *)

Lemma collapse_newlines_length s : length (collapse_newlines s) <= length s.
Proof.
  apply sub_length; [apply newlines_never_empty|].
  intros t n g Hm. apply newlines_never_empty in Hm. simpl. lia.
Qed.

Lemma rejoin_hyphens_length s : length (rejoin_hyphens s) <= length s.
Proof.
  apply sub_length; [apply hyphen_never_empty|].
  intros t n g Hm.
  apply match_hyphen_inv in Hm as (w1 & sp & w2 & rest & _ & -> & -> & _).
  rewrite !length_app. simpl. rewrite length_app. lia.
Qed.

Lemma remove_numbers_length s : length (remove_numbers s) <= length s.
Proof.
  apply sub_length; [apply number_never_empty|].
  intros t n g Hm. apply number_never_empty in Hm. simpl. lia.
Qed.

Lemma lstrip_length s : length (lstrip s) <= length s.
Proof. rewrite lstrip_span. apply span_end_length. Qed.

Lemma strip_length s : length (strip s) <= length s.
Proof.
  unfold strip, rstrip. rewrite length_reverse.
  pose proof (lstrip_length (reverse (lstrip s))) as H. rewrite length_reverse in H.
  pose proof (lstrip_length s). lia.
Qed.

Lemma clean_length s : length (clean s) <= length s.
Proof.
  unfold clean.
  pose proof (strip_length (remove_numbers (rejoin_hyphens (collapse_newlines s)))).
  pose proof (remove_numbers_length (rejoin_hyphens (collapse_newlines s))).
  pose proof (rejoin_hyphens_length (collapse_newlines s)).
  pose proof (collapse_newlines_length s). lia.
Qed.

Lemma join_length sep parts :
  length (join sep parts)
    = sum_list (map length parts) + length sep * pred (length parts).
Proof.
  induction parts as [|p ps IH]; [simpl; lia|].
  destruct ps as [|q ps]; [simpl; lia|].
  change (join sep (p :: q :: ps)) with (p ++ sep ++ join sep (q :: ps)).
  rewrite !length_app, IH. simpl. lia.
Qed.

(** X3.  Cleaning never makes the text longer: the result of
    [normalize] has at most as many characters as the pages that are
    not empty, plus one for each newline that joins two of them. *)
Theorem normalize_result_length (texts : list str) (r : str) :
  normalize texts = Returns r ->
  length r <= sum_list (map length (readable texts)) + pred (length (readable texts)).
Proof.
  rewrite normalize_unfold. destruct (bool_decide (texts = [])); [done|].
  destruct (bool_decide (readable texts = [])); [done|].
  intros [= <-]. pose proof (clean_length (join [LF] (readable texts))) as H.
  rewrite join_length in H. simpl in H. lia.
Qed.

Lemma normalize_result_length_witness :
  length (lit "Page text") <= sum_list (map length (readable [lit "Page 1"; []; lit "text"]))
                              + pred (length (readable [lit "Page 1"; []; lit "text"])).
Proof.
  apply (normalize_result_length [lit "Page 1"; []; lit "text"] (lit "Page text")).
  by vm_compute.
Defined.

(** ** Texts the cleaning leaves alone *)

Lemma rejoin_hyphens_no_hyphen s : HYPHEN ∉ s -> rejoin_hyphens s = s.
Proof.
  induction s as [|c s IH]; intros Hno; [done|].
  rewrite rejoin_hyphens_none.
  - f_equal. apply IH. intros H. apply Hno. apply elem_of_cons. by right.
  - destruct (hyphen_split (c :: s)) as [[[w1 w2] rest]|] eqn:E; [|done].
    apply hyphen_split_elim in E as (sp & E & _). destruct Hno. rewrite E.
    apply elem_of_app. right. apply elem_of_cons. by left.
Qed.

Lemma remove_numbers_no_digits s :
  (forall c, c ∈ s -> Py_UNICODE_ISDECIMAL c = false) -> remove_numbers s = s.
Proof.
  induction s as [|c s IH]; intros Hno; [done|].
  rewrite remove_numbers_none.
  - f_equal. apply IH. intros d Hd. apply Hno. apply elem_of_cons. by right.
  - destruct (number_split (c :: s)) as [rest|] eqn:E; [|done].
    apply number_split_elim in E as (a & d & b & E & _ & N & D & _).
    destruct d as [|x d]; [done|]. inversion D as [|? ? Hx _]; subst. simpl in Hx.
    rewrite Hno in Hx; [done|]. rewrite E. apply elem_of_app. right.
    apply elem_of_cons. by left.
Qed.

Lemma lstrip_id s :
  (forall c, head s = Some c -> Py_UNICODE_ISSPACE c = false) -> lstrip s = s.
Proof. destruct s as [|c s]; [done|]. intros H. simpl. by rewrite (H c). Qed.

Lemma strip_id s :
  (forall c, head s = Some c \/ last s = Some c -> Py_UNICODE_ISSPACE c = false) ->
  strip s = s.
Proof.
  intros H. unfold strip, rstrip. rewrite (lstrip_id s) by eauto.
  rewrite lstrip_id; [apply reverse_involutive|].
  intros c Hc. rewrite head_reverse in Hc. eauto.
Qed.

Lemma clean_id s :
  (forall c, c ∈ s -> c <> LF /\ c <> HYPHEN /\ Py_UNICODE_ISDECIMAL c = false) ->
  (forall c, head s = Some c \/ last s = Some c -> Py_UNICODE_ISSPACE c = false) ->
  clean s = s.
Proof.
  intros Hc He. unfold clean.
  rewrite collapse_newlines_runs, collapse_runs_no_LF by (intros H; by apply Hc in H as (? & _)).
  rewrite rejoin_hyphens_no_hyphen by (intros H; by apply Hc in H as (_ & ? & _)).
  rewrite remove_numbers_no_digits by (intros c H; by apply Hc in H as (_ & _ & ?)).
  by apply strip_id.
Qed.

(** X4.  A page with no newline, no hyphen and no decimal digit, that
    neither starts nor ends with whitespace, comes back as it is. *)
Theorem normalize_leaves_plain_text (s : str) :
  s <> [] ->
  (forall c, c ∈ s -> c <> LF /\ c <> HYPHEN /\ Py_UNICODE_ISDECIMAL c = false) ->
  (forall c, head s = Some c \/ last s = Some c -> Py_UNICODE_ISSPACE c = false) ->
  normalize [s] = Returns s.
Proof.
  intros Hne Hc He. rewrite normalize_unfold. unfold readable.
  rewrite filter_cons_True, filter_nil by done. simpl. by rewrite clean_id.
Qed.

Lemma normalize_leaves_plain_text_witness :
  normalize [lit "Hello, world"] = Returns (lit "Hello, world").
Proof.
  apply (normalize_leaves_plain_text (lit "Hello, world")).
  - discriminate.
  - intros c Hc. vm_compute in Hc.
    repeat (apply elem_of_cons in Hc as [->|Hc]; [by split_and!|]).
    by apply elem_of_nil in Hc.
  - intros c [[= <-]|[= <-]]; reflexivity.
Defined.

(** X5.  Collapsing newlines, removing numbers and trimming are each
    idempotent; rejoining hyphens is not, and so a second cleaning can
    change a cleaned text. *)
Theorem cleaning_steps_idempotence :
  (forall s, collapse_newlines (collapse_newlines s) = collapse_newlines s) /\
  (forall s, remove_numbers (remove_numbers s) = remove_numbers s) /\
  (forall s, strip (strip s) = strip s) /\
  ~ (forall s, rejoin_hyphens (rejoin_hyphens s) = rejoin_hyphens s) /\
  ~ (forall s, clean (clean s) = clean s).
Proof.
  split_and!.
  - intros s. rewrite (collapse_newlines_runs (collapse_newlines s)).
    apply collapse_runs_no_LF. rewrite collapse_newlines_runs. apply collapse_runs_no_newline.
  - intros s. apply remove_numbers_no_digits. apply remove_numbers_no_digit.
  - intros s. apply strip_id. apply strip_ends.
  - intros H. specialize (H (lit "a- b- c")). vm_compute in H. discriminate.
  - intros H. specialize (H (lit "a-1 b")). vm_compute in H. discriminate.
Qed.

(** X6.  Pages without text do not count: as long as one page has
    text, dropping the empty pages gives the same result. *)
Theorem normalize_ignores_empty_pages (texts : list str) :
  readable texts <> [] -> normalize (readable texts) = normalize texts.
Proof.
  intros H. rewrite !normalize_unfold.
  assert (E : readable (readable texts) = readable texts).
  { unfold readable. apply list_filter_filter_l. done. }
  rewrite E. rewrite (bool_decide_eq_false_2 (readable texts = [])) by done.
  rewrite (bool_decide_eq_false_2 (texts = [])); [done|]. by intros ->.
Qed.

Lemma normalize_ignores_empty_pages_witness :
  normalize (readable [[]; lit "one"; []; lit "two"]) = normalize [[]; lit "one"; []; lit "two"].
Proof.
  apply (normalize_ignores_empty_pages [[]; lit "one"; []; lit "two"]).
  vm_compute. discriminate.
Defined.

(** * Further properties of [extract_and_clean_text_from_pdf] *)

Lemma extract_run pypdf pdf_path w b o w' :
  fs w !! pdf_path = Some b ->
  extract_and_clean_text_from_pdf pypdf pdf_path w = (o, w') ->
  fs w' = fs w /\ outbox w' = outbox w /\ user_session w' = user_session w /\
  tmp_pdf_path w' = tmp_pdf_path w /\
  match pdf_text pypdf b with
  | Returns r => o = Returns r /\ stdout w' = stdout w
  | Raises e => o = Raises (Exc ValueError UNREADABLE) /\ stdout w' = stdout w ++ [log_line e]
  end.
Proof.
  intros Hf. unfold extract_and_clean_text_from_pdf, try_except, bind at 1, PdfReader, pdf_text.
  rewrite Hf. destruct (pypdf b) as [ps|e]; [|by intros [= <- <-]].
  rewrite (normalize_pages_run _ ps).
  2:{ simpl. by rewrite lookup_app_r, Nat.sub_diag by lia. }
  destruct (pages_outcome ps); unfold pages_world; destruct (bool_decide (ps = []));
    by intros [= <- <-].
Qed.

(** X7.  When the file is there and the library gives pages of which
    one has text, the function returns what [normalize] gives for the
    page texts, prints nothing and leaves files, chat and session as
    they are. *)
Theorem extract_returns_normalized_text pypdf pdf_path w b texts :
  fs w !! pdf_path = Some b ->
  pypdf b = Returns (document texts) ->
  readable texts <> [] ->
  let o := fst (extract_and_clean_text_from_pdf pypdf pdf_path w) in
  let w' := snd (extract_and_clean_text_from_pdf pypdf pdf_path w) in
  o = normalize texts /\ o = Returns (clean (join [LF] (readable texts))) /\
  stdout w' = stdout w /\ fs w' = fs w /\ outbox w' = outbox w /\
  user_session w' = user_session w.
Proof.
  intros Hf Hb Hr. cbv zeta.
  destruct (extract_and_clean_text_from_pdf pypdf pdf_path w) as [o w'] eqn:E.
  apply (extract_run _ _ _ _ _ _ Hf) in E as (? & ? & ? & _ & E).
  unfold pdf_text in E. rewrite Hb, pages_outcome_document in E.
  assert (Hn : normalize texts = Returns (clean (join [LF] (readable texts)))).
  { rewrite normalize_unfold.
    rewrite (bool_decide_eq_false_2 (texts = [])) by (intros Ht; by rewrite Ht in Hr).
    by rewrite bool_decide_eq_false_2. }
  rewrite Hn in E. destruct E as [-> ?]. simpl. by split_and!.
Qed.

Lemma extract_returns_normalized_text_witness :
  let pypdf : pdf_library := fun _ => Returns (document [lit "Intro-"; []; lit "duction 1"]) in
  let w := set_fs {[ lit "/tmp/a.pdf" := [] ]} empty_world in
  let o := fst (extract_and_clean_text_from_pdf pypdf (lit "/tmp/a.pdf") w) in
  let w' := snd (extract_and_clean_text_from_pdf pypdf (lit "/tmp/a.pdf") w) in
  o = normalize [lit "Intro-"; []; lit "duction 1"] /\
  o = Returns (clean (join [LF] (readable [lit "Intro-"; []; lit "duction 1"]))) /\
  stdout w' = stdout w /\ fs w' = fs w /\ outbox w' = outbox w /\
  user_session w' = user_session w.
Proof.
  intros pypdf w.
  apply (extract_returns_normalized_text pypdf (lit "/tmp/a.pdf") w []
           [lit "Intro-"; []; lit "duction 1"]).
  - apply lookup_singleton_eq.
  - reflexivity.
  - vm_compute. discriminate.
Defined.

Lemma extract_reraises_empty_document_witness :
  let pypdf : pdf_library := fun _ => Returns (document [[]; []]) in
  let w := set_fs {[ lit "/tmp/a.pdf" := [] ]} empty_world in
  exists w' msg,
    extract_and_clean_text_from_pdf pypdf (lit "/tmp/a.pdf") w
      = (Raises (Exc ValueError UNREADABLE), w') /\
    stdout w' = stdout w ++ [lit "Error extracting text from PDF: " ++ msg] /\
    (msg = NO_PAGES \/ msg = NO_TEXT).
Proof.
  intros pypdf w.
  apply (extract_reraises_empty_document pypdf (lit "/tmp/a.pdf") w [] [[]; []]).
  - apply lookup_singleton_eq.
  - reflexivity.
  - by repeat constructor.
Defined.

(** X9.  Whatever the file system and the library do, the function
    either returns a text and prints nothing, or raises the one generic
    [ValueError] and prints one line; it never changes a file, the chat
    or the session. *)
Theorem extract_outcomes pypdf pdf_path w :
  let o := fst (extract_and_clean_text_from_pdf pypdf pdf_path w) in
  let w' := snd (extract_and_clean_text_from_pdf pypdf pdf_path w) in
  fs w' = fs w /\ outbox w' = outbox w /\ user_session w' = user_session w /\
  ((exists r, o = Returns r /\ stdout w' = stdout w) \/
   (o = Raises (Exc ValueError UNREADABLE) /\ exists line, stdout w' = stdout w ++ [line])).
Proof.
  cbv zeta.
  destruct (extract_and_clean_text_from_pdf pypdf pdf_path w) as [o w'] eqn:E. simpl.
  destruct (fs w !! pdf_path) as [b|] eqn:Hf.
  - pose proof (extract_run _ _ _ _ _ _ Hf E) as (Hfs & Hob & Hus & _ & E').
    split_and!; try done. destruct (pdf_text pypdf b) as [r|e]; destruct E' as [-> Hso]; eauto.
  - revert E. unfold extract_and_clean_text_from_pdf, try_except, bind at 1, PdfReader.
    rewrite Hf. intros [= <- <-]. split_and!; try done. right. split; [done|]. by eexists.
Qed.

(** * Further properties of [handle_message] *)

Lemma handle_message_unfold env elements w :
  handle_message env elements w =
    match filter (fun file => mime file = PDF_MIME) elements with
    | [] => send (lit "Please upload a PDF file to summarize.") [] (set_tmp_pdf_path None w)
    | pdf_file :: _ =>
        (send (lit "Processing `" ++ name pdf_file ++ lit "`...") [] ;;;
         try_finally (try_except (process_upload env pdf_file) report) cleanup)
          (set_tmp_pdf_path None w)
    end.
Proof. reflexivity. Qed.

Lemma first_pdf_Some elements f :
  first_pdf elements = Some f ->
  exists rest, filter (fun file => mime file = PDF_MIME) elements = f :: rest.
Proof.
  unfold first_pdf. destruct (filter _ elements) as [|g rest]; [done|].
  intros [= ->]. by exists rest.
Qed.

Lemma first_pdf_None elements :
  first_pdf elements = None -> filter (fun file => mime file = PDF_MIME) elements = [].
Proof. unfold first_pdf. by destruct (filter _ elements). Qed.

Lemma try_except_report_returns (m : py unit) w : fst (try_except m report w) = Returns tt.
Proof.
  unfold try_except. destruct (m w) as [[[]|e] w']; [done|].
  unfold report, send. by destruct (exc_type e).
Qed.

Lemma set_fs_id w : set_fs (fs w) w = w.
Proof. by destruct w. Qed.

Lemma cleanup_run w n :
  tmp_pdf_path w = Some n -> cleanup w = (Returns tt, set_fs (delete n (fs w)) w).
Proof.
  intros H. unfold cleanup. rewrite H. unfold bind, path_exists, remove.
  destruct (fs w !! n) as [b|] eqn:E.
  - rewrite bool_decide_eq_true_2 by eauto. by rewrite E.
  - rewrite bool_decide_eq_false_2 by (by intros [? ?]). unfold ret.
    by rewrite delete_id, set_fs_id.
Qed.

Lemma cleanup_unbound w : tmp_pdf_path w = None -> cleanup w = (Returns tt, w).
Proof. intros H. unfold cleanup. by rewrite H. Qed.

Lemma cleanup_returns w : fst (cleanup w) = Returns tt.
Proof.
  destruct (tmp_pdf_path w) as [n|] eqn:E.
  - by rewrite (cleanup_run _ _ E).
  - by rewrite cleanup_unbound.
Qed.

(** X10.  [handle_message] never raises: whatever is uploaded and
    whatever the library and the file system do, it ends normally. *)
Theorem handle_message_never_raises env elements w :
  fst (handle_message env elements w) = Returns tt.
Proof.
  rewrite handle_message_unfold. destruct (filter _ elements) as [|f rest]; [done|].
  unfold bind at 1, send at 1, try_finally.
  match goal with |- context [try_except ?m report ?w0] =>
    pose proof (try_except_report_returns m w0) as Hr;
    destruct (try_except m report w0) as [r w1]
  end.
  simpl in Hr. subst r. pose proof (cleanup_returns w1) as Hc.
  destruct (cleanup w1) as [[[]|e] w2]; done.
Qed.

(** The upload is refused before any file is made: no content, or no
    name for the temporary file. *)
Lemma process_refused_run env f w o w1 :
  file_data f = NoContent \/
    (file_data f <> NoContent /\ mkstemp (tmp_names env) (fs w) = None) ->
  try_except (process_upload env f) report w = (o, w1) ->
  o = Returns tt /\ exists text, w1 = set_outbox (outbox w ++ [assistant text []]) w.
Proof.
  unfold try_except, process_upload. intros [H|[H Hn]].
  - rewrite H. unfold send. intros [= <- <-]. split; [done|]. by eexists.
  - destruct (file_data f) as [|b|s]; [done| |];
      unfold bind at 1, NamedTemporaryFile; rewrite Hn; unfold report, send; simpl;
      intros [= <- <-]; (split; [done|]); by eexists.
Qed.

Lemma report_send e w : report e w = send (report_text e) [] w.
Proof. unfold report, report_text. by destruct (exc_type e). Qed.

Lemma process_bytes_run env f b w n o w1 :
  file_data f = BytesContent b ->
  mkstemp (tmp_names env) (fs w) = Some n ->
  try_except (process_upload env f) report w = (o, w1) ->
  o = Returns tt /\ fs w1 = <[n := b]> (<[n := []]> (fs w)) /\ tmp_pdf_path w1 = Some n /\
  match pdf_text (pypdf env) b with
  | Returns r =>
      outbox w1 = outbox w ++
        [assistant (lit "Generating summary...") [];
         assistant (lit "**Summary:**" ++ [LF] ++ summarize_text r) []] ++
        closing_messages env r /\
      user_session w1 = <["original_pdf_text" := r]> (user_session w) /\
      stdout w1 = stdout w
  | Raises e =>
      outbox w1 = outbox w ++ [assistant UNREADABLE []] /\
      user_session w1 = user_session w /\
      stdout w1 = stdout w ++ [log_line e]
  end.
Proof.
  intros Hd Hn. unfold try_except, process_upload. rewrite Hd.
  unfold bind at 1, NamedTemporaryFile. rewrite Hn.
  unfold bind at 1, write. unfold bind at 1, assign_tmp_pdf_path. unfold bind at 1.
  match goal with |- context [extract_and_clean_text_from_pdf ?p ?q ?w0] =>
    assert (Hl : fs w0 !! q = Some b) by apply lookup_insert_eq;
    destruct (extract_and_clean_text_from_pdf p q w0) as [o4 w4] eqn:E;
    pose proof (extract_run _ _ _ _ _ _ Hl E) as (Hfs & Hob & Hus & Htmp & Hm)
  end.
  simpl in Hfs, Hob, Hus, Htmp, Hm.
  destruct (pdf_text (pypdf env) b) as [r|e]; destruct Hm as [-> Hso].
  - unfold bind, session_set, send, ret, assistant, call_Action, closing_messages.
    destruct (bool_decide (r <> [])).
    + destruct (cl_Action env (lit "create_quiz")) as [a|e'].
      * intros [= <- <-]; simpl. rewrite Hfs, Hob, Hus, Htmp, Hso, <- ?app_assoc; done.
      * rewrite report_send. unfold send. intros [= <- <-]; simpl.
        rewrite Hfs, Hob, Hus, Htmp, Hso, <- ?app_assoc; done.
    + intros [= <- <-]; simpl. rewrite Hfs, Hob, Hus, Htmp, Hso, <- ?app_assoc; done.
  - unfold report, send, assistant. simpl. intros [= <- <-]. simpl.
    by rewrite Hfs, Hob, Hus, Htmp, Hso.
Qed.

Lemma handle_message_bytes_run env elements w f b n o w' :
  first_pdf elements = Some f ->
  file_data f = BytesContent b ->
  mkstemp (tmp_names env) (fs w) = Some n ->
  handle_message env elements w = (o, w') ->
  fs w' = fs w /\
  match pdf_text (pypdf env) b with
  | Returns r =>
      outbox w' = outbox w ++
        [assistant (lit "Processing `" ++ name f ++ lit "`...") [];
         assistant (lit "Generating summary...") [];
         assistant (lit "**Summary:**" ++ [LF] ++ summarize_text r) []] ++
        closing_messages env r /\
      user_session w' = <["original_pdf_text" := r]> (user_session w) /\
      stdout w' = stdout w
  | Raises e =>
      outbox w' = outbox w ++
        [assistant (lit "Processing `" ++ name f ++ lit "`...") [];
         assistant UNREADABLE []] /\
      user_session w' = user_session w /\
      stdout w' = stdout w ++ [log_line e]
  end.
Proof.
  intros Hf Hd Hn. rewrite handle_message_unfold.
  apply first_pdf_Some in Hf as [rest ->].
  unfold bind at 1, send at 1, try_finally.
  match goal with |- context [try_except ?m report ?w0] =>
    destruct (try_except m report w0) as [r1 w1] eqn:E;
    pose proof (process_bytes_run env f b w0 n r1 w1 Hd Hn E) as (-> & Hfs & Htmp & Hm)
  end.
  rewrite (cleanup_run _ _ Htmp). intros [= <- <-]. simpl in *.
  split.
  - rewrite Hfs, !delete_insert_eq. apply delete_id. by eapply mkstemp_fresh.
  - destruct (pdf_text (pypdf env) b) as [r|e]; destruct Hm as (Hob & Hus & Hso);
      rewrite Hob, Hus, Hso, <- ?app_assoc; done.
Qed.

Lemma handle_message_refused_run env elements w f o w' :
  first_pdf elements = Some f ->
  file_data f = NoContent \/
    (file_data f <> NoContent /\ mkstemp (tmp_names env) (fs w) = None) ->
  handle_message env elements w = (o, w') ->
  exists text,
    w' = set_outbox (outbox w ++
           [assistant (lit "Processing `" ++ name f ++ lit "`...") []; assistant text []])
           (set_tmp_pdf_path None w).
Proof.
  intros Hf Hd. rewrite handle_message_unfold.
  apply first_pdf_Some in Hf as [rest ->].
  unfold bind at 1, send at 1, try_finally.
  match goal with |- context [try_except ?m report ?w0] =>
    destruct (try_except m report w0) as [r1 w1] eqn:E;
    pose proof (process_refused_run env f w0 r1 w1 Hd E) as (-> & text & ->)
  end.
  rewrite cleanup_unbound by done. intros [= <- <-]. exists text.
  simpl. by rewrite <- app_assoc.
Qed.

(** X11.  Unless the content of the upload is a [str], [handle_message]
    leaves the files as it found them: the temporary file it writes is
    removed again on every exit, and no other file is touched. *)
Theorem handle_message_restores_files env elements w :
  (forall f s, first_pdf elements = Some f -> file_data f <> StrContent s) ->
  fs (snd (handle_message env elements w)) = fs w.
Proof.
  intros Hs. destruct (handle_message env elements w) as [o w'] eqn:E. simpl.
  destruct (first_pdf elements) as [f|] eqn:Hf.
  - destruct (file_data f) as [|b|s] eqn:Hd.
    + destruct (handle_message_refused_run _ _ _ _ _ _ Hf (or_introl Hd) E) as [text ->]. done.
    + destruct (mkstemp (tmp_names env) (fs w)) as [n|] eqn:Hn.
      * by destruct (handle_message_bytes_run _ _ _ _ _ _ _ _ Hf Hd Hn E) as [? _].
      * assert (Hr : file_data f = NoContent \/
                  (file_data f <> NoContent /\ mkstemp (tmp_names env) (fs w) = None)).
        { right. split; [by rewrite Hd|done]. }
        destruct (handle_message_refused_run _ _ _ _ _ _ Hf Hr E) as [text ->]. done.
    + by destruct (Hs f s).
  - rewrite handle_message_unfold, (first_pdf_None _ Hf) in E.
    revert E. unfold send. by intros [= <- <-].
Qed.

Lemma handle_message_restores_files_witness :
  let env := Env (fun _ => Raises (Exc (OtherError "PdfReadError") (lit "EOF marker not found")))
                 [lit "/tmp/tmpk3v9.pdf"]
                 (fun _ => Raises (Exc ValueError (lit "1 validation error for Action"))) in
  let upload := [Element (lit "pic.png") (lit "image/png") (StrContent (lit "x"));
                 Element (lit "notes.pdf") PDF_MIME (BytesContent [Byte.x25; Byte.x50])] in
  let w := set_fs {[ lit "/tmp/other" := [Byte.x00] ]} empty_world in
  fs (snd (handle_message env upload w)) = fs w.
Proof.
  intros env upload w. apply (handle_message_restores_files env upload w).
  intros f s Hf. vm_compute in Hf. injection Hf as <-. discriminate.
Defined.

(** X12.  When the extraction of an uploaded PDF fails (unreadable
    file, no pages, no text), the user gets the two messages
    "Processing ..." and the generic "Unable to extract text ...", the
    reason goes to the log only, and the text kept in the session from
    an earlier upload stays as it was. *)
Theorem handle_message_unreadable_pdf env elements w f b n e :
  first_pdf elements = Some f ->
  file_data f = BytesContent b ->
  mkstemp (tmp_names env) (fs w) = Some n ->
  pdf_text (pypdf env) b = Raises e ->
  let w' := snd (handle_message env elements w) in
  outbox w' = outbox w ++
    [assistant (lit "Processing `" ++ name f ++ lit "`...") [];
     assistant UNREADABLE []] /\
  user_session w' = user_session w /\
  stdout w' = stdout w ++ [log_line e] /\
  fs w' = fs w.
Proof.
  intros Hf Hd Hn He. cbv zeta.
  destruct (handle_message env elements w) as [o w'] eqn:E. simpl.
  destruct (handle_message_bytes_run _ _ _ _ _ _ _ _ Hf Hd Hn E) as (Hfs & Hm).
  rewrite He in Hm. by destruct Hm as (? & ? & ?).
Qed.

Lemma handle_message_unreadable_pdf_witness :
  let e := Exc (OtherError "PdfReadError") (lit "EOF marker not found") in
  let env := Env (fun _ => Raises e) [lit "/tmp/tmpk3v9.pdf"]
                 (fun _ => Raises (Exc ValueError (lit "1 validation error for Action"))) in
  let f := Element (lit "notes.pdf") PDF_MIME (BytesContent [Byte.x25; Byte.x50]) in
  let w := set_user_session {[ "original_pdf_text" := lit "earlier text" ]} empty_world in
  let w' := snd (handle_message env [f] w) in
  outbox w' = outbox w ++
    [assistant (lit "Processing `" ++ name f ++ lit "`...") [];
     assistant UNREADABLE []] /\
  user_session w' = user_session w /\
  stdout w' = stdout w ++ [log_line e] /\
  fs w' = fs w.
Proof.
  intros e env f w.
  apply (handle_message_unreadable_pdf env [f] w f [Byte.x25; Byte.x50]
           (lit "/tmp/tmpk3v9.pdf") e); reflexivity.
Defined.

(** X13.  When the extraction succeeds with text [r], the text is
    stored in the session under "original_pdf_text" and the user gets
    "Processing ...", "Generating summary..." and the summary prompt for
    [r].  For an empty [r] nothing follows.  Otherwise the action
    "create_quiz" is built: when the framework gives it, "Summary
    generated successfully!" is sent with it; when the framework
    refuses it with an exception, no such message is sent and the user
    gets the text of the exception instead (as it is for a
    [ValueError], after "An unexpected error occurred: " otherwise).
    Nothing is printed and the files are as before. *)
Theorem handle_message_readable_pdf env elements w f b n r :
  first_pdf elements = Some f ->
  file_data f = BytesContent b ->
  mkstemp (tmp_names env) (fs w) = Some n ->
  pdf_text (pypdf env) b = Returns r ->
  let w' := snd (handle_message env elements w) in
  outbox w' = outbox w ++
    [assistant (lit "Processing `" ++ name f ++ lit "`...") [];
     assistant (lit "Generating summary...") [];
     assistant (lit "**Summary:**" ++ [LF] ++ summarize_text r) []] ++
    (if bool_decide (r <> []) then
       match cl_Action env (lit "create_quiz") with
       | Returns action => [assistant (lit "Summary generated successfully!") [action]]
       | Raises e =>
           [assistant
              (match exc_type e with
               | ValueError => exc_str e
               | _ => lit "An unexpected error occurred: " ++ exc_str e
               end) []]
       end
     else []) /\
  user_session w' !! "original_pdf_text" = Some r /\
  stdout w' = stdout w /\
  fs w' = fs w.
Proof.
  intros Hf Hd Hn He. cbv zeta.
  destruct (handle_message env elements w) as [o w'] eqn:E. simpl.
  destruct (handle_message_bytes_run _ _ _ _ _ _ _ _ Hf Hd Hn E) as (Hfs & Hm).
  rewrite He in Hm. destruct Hm as (? & Hus & ?). split_and!; try done.
  rewrite Hus. apply lookup_insert_eq.
Qed.

Lemma handle_message_readable_pdf_witness :
  let env := Env (fun _ => Returns (document [lit "Chapter 1"; lit "Water boils."]))
                 [lit "/tmp/tmpk3v9.pdf"]
                 (fun _ => Raises (Exc ValueError (lit "1 validation error for Action"))) in
  let f := Element (lit "notes.pdf") PDF_MIME (BytesContent [Byte.x25; Byte.x50]) in
  let r := lit "Chapter Water boils." in
  let w' := snd (handle_message env [f] empty_world) in
  outbox w' =
    [assistant (lit "Processing `notes.pdf`...") [];
     assistant (lit "Generating summary...") [];
     assistant (lit "**Summary:**" ++ [LF] ++ summarize_text r) [];
     assistant (lit "1 validation error for Action") []] /\
  user_session w' !! "original_pdf_text" = Some r /\
  stdout w' = stdout empty_world /\
  fs w' = fs empty_world.
Proof.
  intros env f r.
  apply (handle_message_readable_pdf env [f] empty_world f [Byte.x25; Byte.x50]
           (lit "/tmp/tmpk3v9.pdf") r); reflexivity.
Defined.

(** X14.  An upload without a PDF gets the one message "Please upload a
    PDF file to summarize."; a PDF whose content is missing gets
    "Processing ..." and the message that its content could not be
    retrieved.  In both cases no file is made and the session, the log
    and the lists are as before. *)
Theorem handle_message_rejects_upload env elements w :
  (first_pdf elements = None ->
   handle_message env elements w =
     (Returns tt,
      set_outbox (outbox w ++ [assistant (lit "Please upload a PDF file to summarize.") []])
        (set_tmp_pdf_path None w))) /\
  (forall f,
     first_pdf elements = Some f -> file_data f = NoContent ->
     handle_message env elements w =
       (Returns tt,
        set_outbox (outbox w ++
          [assistant (lit "Processing `" ++ name f ++ lit "`...") [];
           assistant (lit "Error: Could not retrieve content for `" ++ name f
                      ++ lit "`. Please try uploading again.") []])
          (set_tmp_pdf_path None w))).
Proof.
  split.
  - intros Hf. by rewrite handle_message_unfold, (first_pdf_None _ Hf).
  - intros f Hf Hd. rewrite handle_message_unfold.
    apply first_pdf_Some in Hf as [rest ->].
    unfold bind at 1, send at 1, try_finally, try_except, process_upload. rewrite Hd.
    unfold send, cleanup, assistant. simpl. by rewrite <- app_assoc.
Qed.

Lemma handle_message_rejects_upload_witness :
  handle_message (Env (fun _ => Returns []) [] (fun _ => Returns [])) [Element (lit "pic.png") (lit "image/png") NoContent]
      empty_world =
    (Returns tt,
     set_outbox [assistant (lit "Please upload a PDF file to summarize.") []] empty_world) /\
  handle_message (Env (fun _ => Returns []) [] (fun _ => Returns [])) [Element (lit "a.pdf") PDF_MIME NoContent]
      empty_world =
    (Returns tt,
     set_outbox
       [assistant (lit "Processing `a.pdf`...") [];
        assistant (lit "Error: Could not retrieve content for `a.pdf`. Please try uploading again.") []]
       empty_world).
Proof.
  split.
  - apply (proj1 (handle_message_rejects_upload (Env (fun _ => Returns []) [] (fun _ => Returns []))
             [Element (lit "pic.png") (lit "image/png") NoContent] empty_world)).
    reflexivity.
  - apply (proj2 (handle_message_rejects_upload (Env (fun _ => Returns []) [] (fun _ => Returns []))
             [Element (lit "a.pdf") PDF_MIME NoContent] empty_world)
             (Element (lit "a.pdf") PDF_MIME NoContent)); reflexivity.
Defined.

Lemma process_str_run env f s w n o w1 :
  file_data f = StrContent s ->
  mkstemp (tmp_names env) (fs w) = Some n ->
  try_except (process_upload env f) report w = (o, w1) ->
  exists text, outbox w1 = outbox w ++ [assistant text []] /\ tmp_pdf_path w1 = tmp_pdf_path w.
Proof.
  intros Hd Hn. unfold try_except, process_upload. rewrite Hd.
  unfold bind at 1, NamedTemporaryFile. rewrite Hn. unfold report, send. simpl.
  intros [= <- <-]. by eexists.
Qed.

(** X15.  [handle_message] always answers: it keeps the messages sent
    so far and adds at least one, each under the author "Assistant". *)
Theorem handle_message_always_answers env elements w :
  exists msgs,
    msgs <> [] /\
    outbox (snd (handle_message env elements w)) = outbox w ++ msgs /\
    Forall (fun m => author m = lit "Assistant") msgs.
Proof.
  destruct (handle_message env elements w) as [o w'] eqn:E. simpl.
  destruct (first_pdf elements) as [f|] eqn:Hf.
  - assert (Hrefused : file_data f = NoContent \/
              (file_data f <> NoContent /\ mkstemp (tmp_names env) (fs w) = None) ->
            exists msgs, msgs <> [] /\ outbox w' = outbox w ++ msgs /\
              Forall (fun m => author m = lit "Assistant") msgs).
    { intros Hr. destruct (handle_message_refused_run _ _ _ _ _ _ Hf Hr E) as [text ->].
      eexists. split_and!; [|done|]; [done|by repeat constructor]. }
    destruct (mkstemp (tmp_names env) (fs w)) as [n|] eqn:Hn.
    2:{ apply Hrefused. destruct (file_data f); [by left|right|right]; by split. }
    destruct (file_data f) as [|b|s] eqn:Hd.
    + apply Hrefused. by left.
    + destruct (handle_message_bytes_run _ _ _ _ _ _ _ _ Hf Hd Hn E) as (_ & Hm).
      destruct (pdf_text (pypdf env) b) as [r|e]; destruct Hm as (-> & _).
      * eexists. split_and!; [|done|]; [done|].
        unfold closing_messages. destruct (bool_decide (r <> []));
          [destruct (cl_Action env (lit "create_quiz"))|]; by repeat constructor.
      * eexists. split_and!; [|done|]; [done|by repeat constructor].
    + revert E. rewrite handle_message_unfold.
      apply first_pdf_Some in Hf as [rest ->].
      unfold bind at 1, send at 1, try_finally.
      match goal with |- context [try_except ?m report ?w0] =>
        destruct (try_except m report w0) as [r1 w1] eqn:E1;
        pose proof (process_str_run env f s w0 n r1 w1 Hd Hn E1) as (text & Hob & Htmp)
      end.
      rewrite cleanup_unbound by done. intros [= <- <-]. rewrite Hob. simpl.
      rewrite <- app_assoc. eexists. split_and!; [|done|]; [done|by repeat constructor].
  - rewrite handle_message_unfold, (first_pdf_None _ Hf) in E.
    revert E. unfold send. intros [= <- <-]. simpl.
    eexists. split_and!; [|done|]; [done|by repeat constructor].
Qed.

(** * on_create_quiz *)

Lemma on_create_quiz_text w (text : str) :
  user_session w !! "original_pdf_text" = Some text -> text <> [] ->
  on_create_quiz w =
    (Returns tt,
     set_outbox (outbox w ++
       [assistant (lit "Generating quiz...") [];
        assistant (lit "**Quiz:**" ++ [LF] ++ QUIZ_HEAD ++ text ++ QUIZ_TAIL) []]) w).
Proof.
  intros Hs Hne. unfold on_create_quiz, bind at 1, session_get. rewrite Hs.
  rewrite bool_decide_eq_false_2 by done.
  unfold generate_quiz. rewrite bool_decide_eq_false_2 by done.
  unfold bind, send, first_item, ret, assistant. simpl. by rewrite <- app_assoc.
Qed.

Lemma on_create_quiz_no_text w :
  user_session w !! "original_pdf_text" = None \/
    user_session w !! "original_pdf_text" = Some ([] : str) ->
  on_create_quiz w =
    (Returns tt,
     set_outbox (outbox w ++
       [assistant (lit "No PDF text found to generate a quiz. Please upload a PDF first.") []]) w).
Proof.
  intros [Hs|Hs]; unfold on_create_quiz, bind at 1, session_get; by rewrite Hs.
Qed.

(** X16.  [on_create_quiz] never raises and never shows the refusal
    that [generate_quiz] has for an empty text: with no text in the
    session (none stored, or an empty one) it asks for a PDF; otherwise
    it sends "Generating quiz..." and the quiz prompt built from the
    stored text.  It changes nothing but the chat. *)
Theorem on_create_quiz_outcomes (w : world) :
  fst (on_create_quiz w) = Returns tt /\
  (user_session w !! "original_pdf_text" = None \/
     user_session w !! "original_pdf_text" = Some ([] : str) ->
   snd (on_create_quiz w) =
     set_outbox (outbox w ++
       [assistant (lit "No PDF text found to generate a quiz. Please upload a PDF first.") []]) w) /\
  (forall text : str,
     user_session w !! "original_pdf_text" = Some text -> text <> [] ->
     snd (on_create_quiz w) =
       set_outbox (outbox w ++
         [assistant (lit "Generating quiz...") [];
          assistant (lit "**Quiz:**" ++ [LF] ++ QUIZ_HEAD ++ text ++ QUIZ_TAIL) []]) w) /\
  (forall m, m ∈ outbox (snd (on_create_quiz w)) -> m ∈ outbox w \/
     content m <> lit "**Quiz:**" ++ [LF] ++ NO_QUIZ).
Proof.
  assert (Hno : forall m : chat_message,
            m ∈ [assistant (lit "No PDF text found to generate a quiz. Please upload a PDF first.") []] ->
            content m <> lit "**Quiz:**" ++ [LF] ++ NO_QUIZ).
  { intros m Hm. apply elem_of_cons in Hm as [->|Hm]; [by vm_compute|].
    by apply elem_of_nil in Hm. }
  destruct (user_session w !! "original_pdf_text") as [text|] eqn:Hs.
  - destruct (decide (text = [])) as [->|Hne].
    + rewrite on_create_quiz_no_text by (by right). split_and!.
      * done.
      * done.
      * by intros text [= <-].
      * intros m Hm. simpl in Hm. apply elem_of_app in Hm as [Hm|Hm]; [by left|right].
        by apply Hno.
    + rewrite (on_create_quiz_text _ _ Hs Hne). split_and!.
      * done.
      * by intros [|[= ->]].
      * by intros ? [= <-].
      * intros m Hm. simpl in Hm. apply elem_of_app in Hm as [Hm|Hm]; [by left|right].
        apply elem_of_cons in Hm as [->|Hm]; [by vm_compute|].
        apply elem_of_cons in Hm as [->|Hm]; [|by apply elem_of_nil in Hm].
        intros H. vm_compute in H. discriminate.
  - rewrite on_create_quiz_no_text by (by left). split_and!.
    + done.
    + done.
    + done.
    + intros m Hm. simpl in Hm. apply elem_of_app in Hm as [Hm|Hm]; [by left|right].
      by apply Hno.
Qed.

Lemma on_create_quiz_outcomes_witness :
  snd (on_create_quiz empty_world) =
    set_outbox (outbox empty_world ++
      [assistant (lit "No PDF text found to generate a quiz. Please upload a PDF first.") []])
      empty_world /\
  let w := set_user_session {[ "original_pdf_text" := lit "Water boils." ]} empty_world in
  snd (on_create_quiz w) =
    set_outbox (outbox w ++
      [assistant (lit "Generating quiz...") [];
       assistant (lit "**Quiz:**" ++ [LF] ++ QUIZ_HEAD ++ lit "Water boils." ++ QUIZ_TAIL) []]) w.
Proof.
  split.
  - apply (proj1 (proj2 (on_create_quiz_outcomes empty_world))). left. reflexivity.
  - intros w. apply (proj1 (proj2 (proj2 (on_create_quiz_outcomes w))) (lit "Water boils.")).
    + reflexivity.
    + discriminate.
Defined.

(** X17.  Upload, then quiz.  After an upload whose extraction gave the
    text [r], [on_create_quiz] works on that text: it sends the quiz
    prompt for [r] when [r] is not empty and asks for a PDF when [r] is
    empty.  The upload adds a message with an action, the quiz button,
    only when [r] is not empty and the framework gave the action. *)
Theorem upload_then_quiz env elements w f b n (r : str) :
  first_pdf elements = Some f ->
  file_data f = BytesContent b ->
  mkstemp (tmp_names env) (fs w) = Some n ->
  pdf_text (pypdf env) b = Returns r ->
  let w1 := snd (handle_message env elements w) in
  let w2 := snd (on_create_quiz w1) in
  outbox w2 = outbox w1 ++
    (if bool_decide (r <> [])
     then [assistant (lit "Generating quiz...") [];
           assistant (lit "**Quiz:**" ++ [LF] ++ QUIZ_HEAD ++ r ++ QUIZ_TAIL) []]
     else [assistant (lit "No PDF text found to generate a quiz. Please upload a PDF first.") []]) /\
  (forall m,
     m ∈ outbox w1 -> actions m <> [] ->
     m ∈ outbox w \/
     (r <> [] /\
      exists action,
        cl_Action env (lit "create_quiz") = Returns action /\
        m = assistant (lit "Summary generated successfully!") [action])).
Proof.
  intros Hf Hd Hn He. cbv zeta.
  destruct (handle_message env elements w) as [o w1] eqn:E. simpl.
  destruct (handle_message_bytes_run _ _ _ _ _ _ _ _ Hf Hd Hn E) as (_ & Hm).
  rewrite He in Hm. destruct Hm as (Hob & Hus & _).
  assert (Hl : user_session w1 !! "original_pdf_text" = Some r).
  { rewrite Hus. apply lookup_insert_eq. }
  split.
  - destruct (decide (r = [])) as [->|Hne].
    + rewrite on_create_quiz_no_text by (by right). by rewrite bool_decide_eq_false_2 by naive_solver.
    + rewrite (on_create_quiz_text _ _ Hl Hne). by rewrite bool_decide_eq_true_2.
  - intros m Hin Hact. rewrite Hob in Hin. rewrite !elem_of_app in Hin.
    destruct Hin as [Hin|[Hin|Hin]]; [by left| |].
    + exfalso. repeat (apply elem_of_cons in Hin as [->|Hin]; [done|]).
      by apply elem_of_nil in Hin.
    + right. unfold closing_messages in Hin.
      destruct (decide (r = [])) as [->|Hne].
      * rewrite bool_decide_eq_false_2 in Hin by naive_solver. by apply elem_of_nil in Hin.
      * rewrite bool_decide_eq_true_2 in Hin by done. split; [done|].
        destruct (cl_Action env (lit "create_quiz")) as [a|e].
        -- apply elem_of_cons in Hin as [->|Hin]; [by exists a|by apply elem_of_nil in Hin].
        -- apply elem_of_cons in Hin as [->|Hin]; [done|by apply elem_of_nil in Hin].
Qed.

Lemma upload_then_quiz_witness :
  let env := Env (fun _ => Returns (document [lit "Chapter 1"; lit "Water boils."]))
                 [lit "/tmp/tmpk3v9.pdf"]
                 (fun _ => Raises (Exc ValueError (lit "1 validation error for Action"))) in
  let f := Element (lit "notes.pdf") PDF_MIME (BytesContent [Byte.x25; Byte.x50]) in
  let r := lit "Chapter Water boils." in
  let w1 := snd (handle_message env [f] empty_world) in
  let w2 := snd (on_create_quiz w1) in
  outbox w2 = outbox w1 ++
    [assistant (lit "Generating quiz...") [];
     assistant (lit "**Quiz:**" ++ [LF] ++ QUIZ_HEAD ++ r ++ QUIZ_TAIL) []] /\
  (forall m,
     m ∈ outbox w1 -> actions m <> [] ->
     m ∈ outbox empty_world \/
     (r <> [] /\
      exists action,
        cl_Action env (lit "create_quiz") = Returns action /\
        m = assistant (lit "Summary generated successfully!") [action])).
Proof.
  intros env f r.
  apply (upload_then_quiz env [f] empty_world f [Byte.x25; Byte.x50]
           (lit "/tmp/tmpk3v9.pdf") r); reflexivity.
Defined.

(** * src/minimal_app.py *)

Lemma minimal_for_each_run author (reply : element -> str) (body : element -> py unit)
    elements w :
  (forall f w0, body f w0 = minimal_app.send author (reply f) w0) ->
  for_each elements body w =
    (Returns tt,
     set_outbox (outbox w ++ map (fun f => Msg (reply f) author []) elements) w).
Proof.
  intros Hbody. revert w. induction elements as [|f fs IH]; intros w; simpl.
  - unfold ret. rewrite app_nil_r. by destruct w.
  - unfold bind. rewrite Hbody. unfold minimal_app.send. rewrite IH. simpl.
    by rewrite <- app_assoc.
Qed.

(** X18.  The handler of the minimal application never raises and
    changes nothing but the chat.  Without elements it sends the one
    message "No file uploaded."; otherwise it sends one message for
    each element, in order: the name with the size when the content is
    there and not empty, the name with "content is missing" when the
    content is absent or empty (a file of zero bytes included). *)
Theorem minimal_handle_message_replies (author : str) (elements : list element) (w : world) :
  minimal_app.handle_message author elements w =
    (Returns tt,
     set_outbox
       (outbox w ++
        match elements with
        | [] => [Msg (lit "No file uploaded.") author []]
        | _ =>
            map (fun file =>
                   Msg (lit "Received file: " ++ name file ++
                        (if minimal_app.has_content (file_data file)
                         then lit ", size: "
                              ++ minimal_app.str_of_int (minimal_app.len (file_data file))
                              ++ lit " bytes"
                         else lit ", but content is missing!"))
                       author [])
                elements
        end) w) /\
  (forall file,
     file ∈ elements ->
     file_data file = NoContent \/ file_data file = BytesContent [] \/
       file_data file = StrContent [] ->
     Msg (lit "Received file: " ++ name file ++ lit ", but content is missing!") author []
       ∈ outbox (snd (minimal_app.handle_message author elements w))).
Proof.
  assert (Hrun : minimal_app.handle_message author elements w =
    (Returns tt,
     set_outbox
       (outbox w ++
        match elements with
        | [] => [Msg (lit "No file uploaded.") author []]
        | _ =>
            map (fun file =>
                   Msg (lit "Received file: " ++ name file ++
                        (if minimal_app.has_content (file_data file)
                         then lit ", size: "
                              ++ minimal_app.str_of_int (minimal_app.len (file_data file))
                              ++ lit " bytes"
                         else lit ", but content is missing!"))
                       author [])
                elements
        end) w)).
  { unfold minimal_app.handle_message. destruct elements as [|f fs]; [done|].
    rewrite bool_decide_eq_true_2 by done.
    apply (minimal_for_each_run author
             (fun file => lit "Received file: " ++ name file ++
                (if minimal_app.has_content (file_data file)
                 then lit ", size: "
                      ++ minimal_app.str_of_int (minimal_app.len (file_data file))
                      ++ lit " bytes"
                 else lit ", but content is missing!"))).
    intros file w0. by destruct (minimal_app.has_content (file_data file)). }
  split; [done|].
  intros file Hin Hd. rewrite Hrun. simpl. apply elem_of_app. right.
  destruct elements as [|f fs]; [by apply elem_of_nil in Hin|].
  apply list_elem_of_fmap. exists file. split; [|done].
  destruct Hd as [->|[->| ->]]; done.
Qed.

Lemma minimal_handle_message_replies_witness :
  Msg (lit "Received file: empty.bin, but content is missing!") (lit "Chatbot") []
    ∈ outbox (snd (minimal_app.handle_message (lit "Chatbot")
                     [Element (lit "a.txt") (lit "text/plain") (BytesContent [Byte.x68; Byte.x69]);
                      Element (lit "empty.bin") (lit "application/octet-stream") (BytesContent [])]
                     empty_world)).
Proof.
  apply (proj2 (minimal_handle_message_replies (lit "Chatbot")
           [Element (lit "a.txt") (lit "text/plain") (BytesContent [Byte.x68; Byte.x69]);
            Element (lit "empty.bin") (lit "application/octet-stream") (BytesContent [])]
           empty_world)
         (Element (lit "empty.bin") (lit "application/octet-stream") (BytesContent []))).
  - apply elem_of_cons. right. apply elem_of_cons. by left.
  - right. by left.
Defined.

(** * The removal of numbers, one match at a time *)

(** X19.  The removal of numbers scans the text from left to right.
    Where whitespace (possibly none), then digits, then whitespace
    (possibly none) start, the whole run becomes one space, whatever
    stands before and after it; where no such run starts, the character
    is kept. *)
Theorem remove_numbers_left_to_right :
  (forall a d b rest,
     all_of SPACE a -> d <> [] -> all_of DIGIT d -> all_of SPACE b ->
     stops SPACE rest -> stops DIGIT (b ++ rest) ->
     remove_numbers (a ++ d ++ b ++ rest) = SP :: remove_numbers rest) /\
  (forall c s,
     ~ (exists a d rest, all_of SPACE a /\ d <> [] /\ all_of DIGIT d /\ c :: s = a ++ d ++ rest) ->
     remove_numbers (c :: s) = c :: remove_numbers s).
Proof.
  split.
  - intros a d b rest A N D B S1 S2. apply remove_numbers_some. by apply number_split_intro.
  - intros c s Hno. apply remove_numbers_none.
    destruct (number_split (c :: s)) as [rest|] eqn:E; [|done].
    destruct Hno. apply number_split_elim in E as (a & d & b & E & ? & ? & ? & _).
    by exists a, d, (b ++ rest).
Qed.

Lemma remove_numbers_left_to_right_witness :
  remove_numbers (lit "  " ++ lit "2024" ++ lit " " ++ lit "x1") = SP :: remove_numbers (lit "x1") /\
  remove_numbers (lit "x 1") = "x"%char :: remove_numbers (lit " 1").
Proof.
  split.
  - apply (proj1 remove_numbers_left_to_right (lit "  ") (lit "2024") (lit " ") (lit "x1"));
      try (by repeat constructor); try discriminate; reflexivity.
  - apply (proj2 remove_numbers_left_to_right "x"%char (lit " 1")).
    intros (a & d & rest & A & N & D & E).
    destruct a as [|x a].
    + destruct d as [|y d]; [done|]. injection E as <- _. by inversion D.
    + injection E as <- _. by inversion A.
Defined.
